(** * cloud-init on the BSDs: rc.conf store and network renderers

    A shallow embedding of

    - [cloudinit/net/freebsd.py]  ([Renderer.loadrcconf], [updatercconf],
      [_get_ifname_by_mac], [_write_network]; the first two are duplicated
      verbatim in [cloudinit/distros/freebsd.py]),
    - [cloudinit/net/netbsd.py]   ([Renderer._get_ifname_by_mac],
      [_write_network]).

    Python text is modelled by [string]; a character stands for a code point
    below 256 and the character classes are those of Python 3 [str] patterns
    on that range.  A Python value that is either [None] or a [str] is an
    [option string].  Dictionaries are association lists in insertion order
    with unique keys.  Effects (the two files, the interface listing, the
    commands run, the exceptions logged) live in a [world] that is threaded
    through a state-and-exception monad; an exception keeps the world reached
    so far, as a Python exception keeps the files already written.
    [LOG.debug] and [LOG.info] calls have no influence on state or control
    flow and are left out; [util.logexc] calls are recorded.  Writing a file
    and running a command are taken to succeed; reading a file that does not
    exist raises [IOError].

    Three modules of the package are used by these files without being among
    them: [distros/parsers/resolv_conf.py], [distros/netbsd_util.py] and
    [util.py].  What is needed of the first two is modelled from the spec
    and marked as such. *)

From Stdlib Require Import Bool Arith Lia List Ascii String.
Import ListNotations.
Local Open Scope list_scope.
Local Open Scope string_scope.


(** ** Characters *)

Definition LF : ascii := "010"%char.
Definition CR : ascii := "013"%char.
Definition TAB : ascii := "009"%char.
Definition dquote : ascii := "034"%char.
Definition squote : ascii := "039"%char.

Definition code (c : ascii) : nat := nat_of_ascii c.

Definition between (lo hi n : nat) : bool := Nat.leb lo n && Nat.leb n hi.

(** [str.isspace], which is also what [\s] matches. *)
Definition is_space (c : ascii) : bool :=
  let n := code c in
  between 9 13 n || between 28 32 n || Nat.eqb n 133 || Nat.eqb n 160.

(** The line boundaries of [str.splitlines]. *)
Definition is_linebreak (c : ascii) : bool :=
  let n := code c in
  between 10 13 n || between 28 30 n || Nat.eqb n 133.

(** [\d]. *)
Definition is_digit (c : ascii) : bool := between 48 57 (code c).

(** [\w]: alphanumeric or underscore. *)
Definition is_word (c : ascii) : bool :=
  let n := code c in
  between 48 57 n || between 65 90 n || Nat.eqb n 95 || between 97 122 n
  || Nat.eqb n 170 || between 178 179 n || Nat.eqb n 181 || between 185 186 n
  || between 188 190 n || between 192 214 n || between 216 246 n
  || between 248 255 n.

(** Membership in the pair of quote characters, double and single. *)
Definition is_quote (c : ascii) : bool :=
  Ascii.eqb c dquote || Ascii.eqb c squote.

(** [[\da-f:]]. *)
Definition is_machex (c : ascii) : bool :=
  is_digit c || between 97 102 (code c) || Nat.eqb (code c) 58.

(** ** Strings *)

Fixpoint forallb_str (p : ascii -> bool) (s : string) : bool :=
  match s with
  | EmptyString => true
  | String c s' => p c && forallb_str p s'
  end.

Definition is_empty (s : string) : bool :=
  match s with EmptyString => true | _ => false end.

(** Longest prefix whose characters satisfy [p], and the rest. *)
Fixpoint span (p : ascii -> bool) (s : string) : string * string :=
  match s with
  | EmptyString => (EmptyString, EmptyString)
  | String c s' =>
      if p c then let (a, b) := span p s' in (String c a, b)
      else (EmptyString, s)
  end.

(** [\s*] at the head of [s]: what is left after it. *)
Definition skip_spaces (s : string) : string := snd (span is_space s).

(** [s.rstrip()]. *)
Fixpoint rstrip (s : string) : string :=
  match s with
  | EmptyString => EmptyString
  | String c s' =>
      match rstrip s' with
      | EmptyString => if is_space c then EmptyString else String c EmptyString
      | r => String c r
      end
  end.

(** [s[-1]], when [s] is not empty. *)
Fixpoint last_char (s : string) : option ascii :=
  match s with
  | EmptyString => None
  | String c EmptyString => Some c
  | String _ s' => last_char s'
  end.

(** [s[0:-1]]. *)
Fixpoint drop_last (s : string) : string :=
  match s with
  | EmptyString => EmptyString
  | String _ EmptyString => EmptyString
  | String c s' => String c (drop_last s')
  end.

(** [s.splitlines()]; [after_cr] remembers that the previous character was a
    carriage return, so that CR LF counts as one boundary. *)
Fixpoint splitlines_from (after_cr : bool) (s : string) : list string :=
  match s with
  | EmptyString => []
  | String c s' =>
      if after_cr && Ascii.eqb c LF then splitlines_from false s'
      else if is_linebreak c then
        EmptyString :: splitlines_from (Ascii.eqb c CR) s'
      else
        match splitlines_from false s' with
        | [] => [String c EmptyString]
        | l :: ls => String c l :: ls
        end
  end.

Definition splitlines (s : string) : list string := splitlines_from false s.

(** ** Python values, exceptions, dictionaries *)

(** [None] or a [str]. *)
Definition pyval := option string.

(** [if v:] *)
Definition truthy (v : pyval) : bool :=
  match v with
  | Some s => negb (is_empty s)
  | None => false
  end.

(** ['%s' % v] *)
Definition fmt_s (v : pyval) : string :=
  match v with
  | Some s => s
  | None => "None"
  end.

Definition pyval_eqb (a b : pyval) : bool :=
  match a, b with
  | Some x, Some y => String.eqb x y
  | None, None => true
  | _, _ => false
  end.

Inductive exn := IndexError | TypeError | IOError | ValueError.

Inductive result (A : Type) :=
| Ok (a : A)
| Raise (e : exn).
Arguments Ok {A} a.
Arguments Raise {A} e.

(** A [dict] with [str] keys: insertion order, unique keys. *)
Definition dict := list (string * pyval).

Fixpoint dict_get (k : string) (d : dict) : option pyval :=
  match d with
  | [] => None
  | (k', v) :: d' => if String.eqb k' k then Some v else dict_get k d'
  end.

(** [k in d] *)
Definition dict_mem (k : string) (d : dict) : bool :=
  match dict_get k d with Some _ => true | None => false end.

(** [d[k] = v]: in place when the key exists, at the end otherwise. *)
Fixpoint dict_set (k : string) (v : pyval) (d : dict) : dict :=
  match d with
  | [] => [(k, v)]
  | (k', v') :: d' =>
      if String.eqb k' k then (k', v) :: d' else (k', v') :: dict_set k v d'
  end.

Definition dict_keys (d : dict) : list string := map fst d.

(** ** The rc.conf loader *)

(** [RE_MATCH.match(line)], giving groups 1 and 2.  The pattern is: start
    of text, one or more [\w] (group 1), any [\s], an equals sign, any [\s],
    any characters but a line feed (group 2), any [\s].  The repetitions are
    greedy and no shorter choice can succeed where the longest fails; the
    final run of [\s] accepts whatever follows group 2. *)
Definition RE_MATCH (line : string) : option (string * string) :=
  let (w, r1) := span is_word line in
  if is_empty w then None
  else
    match skip_spaces r1 with
    | String c r2 =>
        if Ascii.eqb c "="%char then
          Some (w, fst (span (fun x => negb (Ascii.eqb x LF)) (skip_spaces r2)))
        else None
    | EmptyString => None
    end.

(** The quote handling of [loadrcconf], from [val[0]] to the length test:
    [Ok None] is the skipped empty value. *)
Definition kill_quotes (val : string) : result (option string) :=
  match val with
  | EmptyString => Raise IndexError                     (* val[0] *)
  | String c0 rest =>
      let val1 := if is_quote c0 then rest else val in
      match last_char val1 with
      | None => Raise IndexError                        (* val[-1] *)
      | Some cl =>
          let val2 := if is_quote cl then drop_last val1 else val1 in
          if is_empty val2 then Ok None else Ok (Some val2)
      end
  end.

(** The body of the [for line in lines] loop. *)
Definition loadrcconf_line (conf : dict) (line : string) : result dict :=
  match RE_MATCH line with
  | None => Ok conf
  | Some (g1, g2) =>
      let key := rstrip g1 in
      let val := rstrip g2 in
      match kill_quotes val with
      | Raise e => Raise e
      | Ok None => Ok conf
      | Ok (Some v) => Ok (dict_set key (Some v) conf)
      end
  end.

Fixpoint loadrcconf_lines (conf : dict) (lines : list string) : result dict :=
  match lines with
  | [] => Ok conf
  | line :: rest =>
      match loadrcconf_line conf line with
      | Ok conf' => loadrcconf_lines conf' rest
      | Raise e => Raise e
      end
  end.

(** [loadrcconf] on the text of the file. *)
Definition loadrcconf_text (text : string) : result dict :=
  loadrcconf_lines [] (splitlines text).

(** The text [updatercconf] writes: for each item the key, an equals sign,
    the [%s] rendering of the value between double quotes, and a line feed. *)
Definition rcconf_line (kv : string * pyval) : string :=
  fst kv ++ String "="%char (String dquote (fmt_s (snd kv)
         ++ String dquote (String LF EmptyString))).

Fixpoint rcconf_text (conf : dict) : string :=
  match conf with
  | [] => EmptyString
  | kv :: rest => rcconf_line kv ++ rcconf_text rest
  end.

(** ** The world and the monad *)

(** Modelled from the spec: the resolver configuration, whose class
    [ResolvConf] ([cloudinit/distros/parsers/resolv_conf.py]) is not among
    the sources.  The spec's data model has a directive per name server and
    per search domain and keeps unrecognised lines verbatim; parsing and
    serialising are inverse on such files (spec, section 8), so the file is
    held as the list of its directives. *)
Inductive directive :=
| Nameserver (address : string)
| SearchDomain (domain : string)
| OtherLine (line : string).

Definition directive_eqb (a b : directive) : bool :=
  match a, b with
  | Nameserver x, Nameserver y => String.eqb x y
  | SearchDomain x, SearchDomain y => String.eqb x y
  | OtherLine x, OtherLine y => String.eqb x y
  | _, _ => false
  end.

Inductive event :=
| WriteRcConf (text : string)               (* util.write_file(rc_conf_fn, ..) *)
| WriteResolvConf (ds : list directive)     (* util.write_file(resolv_conf_fn, ..) *)
| Subp (cmd : list string)                  (* util.subp of a service command *)
| LogExc (msg : string) (arg : pyval)       (* util.logexc *)
| SetRcConfigValue (key : string) (value : pyval).
                                            (* netbsd_util.set_rc_config_value *)

(** [rc_conf] and [resolv_conf] are the two files ([None]: the file does not
    exist); [ifconfig_a] is what the interface listing prints;
    [dhcp_interfaces] and [postcmds] are the attributes of the NetBSD
    renderer object; [trace] has the newest event first. *)
Record world := {
  rc_conf : option string;
  resolv_conf : option (list directive);
  ifconfig_a : string;
  dhcp_interfaces : list pyval;
  postcmds : bool;
  trace : list event
}.

Definition M (A : Type) : Type := world -> result A * world.

Definition ret {A} (a : A) : M A := fun w => (Ok a, w).

Definition bind {A B} (m : M A) (f : A -> M B) : M B :=
  fun w =>
    match m w with
    | (Ok a, w') => f a w'
    | (Raise e, w') => (Raise e, w')
    end.

Definition raise {A} (e : exn) : M A := fun w => (Raise e, w).

Definition lift {A} (r : result A) : M A := fun w => (r, w).

Notation "x <- m ;; k" := (bind m (fun x => k))
  (at level 61, m at next level, right associativity).
Notation "m ;;; k" := (bind m (fun _ => k))
  (at level 61, right associativity).

Definition exn_eqb (a b : exn) : bool :=
  match a, b with
  | IndexError, IndexError | TypeError, TypeError
  | IOError, IOError | ValueError, ValueError => true
  | _, _ => false
  end.

(** [try: m  except e: h] *)
Definition try_except {A} (m : M A) (e : exn) (h : M A) : M A :=
  fun w =>
    match m w with
    | (Raise e', w') => if exn_eqb e e' then h w' else (Raise e', w')
    | r => r
    end.

Definition emit (ev : event) : M unit :=
  fun w => (Ok tt,
            {| rc_conf := rc_conf w; resolv_conf := resolv_conf w;
               ifconfig_a := ifconfig_a w;
               dhcp_interfaces := dhcp_interfaces w; postcmds := postcmds w;
               trace := ev :: trace w |}).

(** [util.load_file(self.rc_conf_fn)] *)
Definition load_rc_conf : M string :=
  fun w =>
    match rc_conf w with
    | Some text => (Ok text, w)
    | None => (Raise IOError, w)
    end.

(** [util.write_file(self.rc_conf_fn, text)] *)
Definition write_rc_conf (text : string) : M unit :=
  fun w => (Ok tt,
            {| rc_conf := Some text; resolv_conf := resolv_conf w;
               ifconfig_a := ifconfig_a w;
               dhcp_interfaces := dhcp_interfaces w; postcmds := postcmds w;
               trace := WriteRcConf text :: trace w |}).

(** [util.write_file(self.resolv_conf_fn, str(resolvconf), 0o644)] *)
Definition write_resolv_conf (ds : list directive) : M unit :=
  fun w => (Ok tt,
            {| rc_conf := rc_conf w; resolv_conf := Some ds;
               ifconfig_a := ifconfig_a w;
               dhcp_interfaces := dhcp_interfaces w; postcmds := postcmds w;
               trace := WriteResolvConf ds :: trace w |}).

(** ** The rc.conf store: [loadrcconf] and [updatercconf] *)

Definition loadrcconf : M dict :=
  text <- load_rc_conf ;; lift (loadrcconf_text text).

(** One turn of [for item in conf.keys()] in [updatercconf]. *)
Definition update_item (key : string) (value : pyval)
    (st : dict * bool) (item : string) : dict * bool :=
  let (conf, config_changed) := st in
  match dict_get item conf with
  | Some cur =>
      if String.eqb item key && negb (pyval_eqb cur value)
      then (dict_set item value conf, true)
      else st
  | None => st
  end.

(** The in-memory part of [updatercconf]: the new dictionary and
    [config_changed]. *)
Definition update_conf (key : string) (value : pyval) (conf : dict)
    : dict * bool :=
  if negb (dict_mem key conf) then (dict_set key value conf, true)
  else fold_left (update_item key value) (dict_keys conf) (conf, false).

Definition updatercconf (key : string) (value : pyval) : M unit :=
  conf <- loadrcconf ;;
  let (conf', config_changed) := update_conf key value conf in
  if config_changed then write_rc_conf (rcconf_text conf') else ret tt.

(** [readrcconf] *)
Definition readrcconf (key : string) : M pyval :=
  conf <- loadrcconf ;;
  ret (match dict_get key conf with Some v => v | None => None end).

(** ** Looking an interface up by its MAC address *)

(** The longest [p] with [r = p ++ ":" ++ q], if [r] has a colon. *)
Fixpoint upto_last_colon (r : string) : option string :=
  match r with
  | EmptyString => None
  | String c r' =>
      match upto_last_colon r' with
      | Some p => Some (String c p)
      | None => if Ascii.eqb c ":"%char then Some EmptyString else None
      end
  end.

(** One or more [\S] followed by a colon, at the head of [s]: the greedy run
    of [\S] gives back characters until a colon follows, so the name ends
    before the last colon of the run. *)
Definition name_colon (s : string) : option string :=
  match fst (span (fun c => negb (is_space c)) s) with
  | String c r => option_map (String c) (upto_last_colon r)
  | EmptyString => None
  end.

(** A match of the separator of [re.split] starting exactly at the head of
    [s]: the group and the length of the match.  The first alternative needs
    the start of the text ([at_start]), the second a line feed. *)
Definition separator_here (at_start : bool) (s : string)
    : option (string * nat) :=
  match s with
  | EmptyString => None
  | String c s' =>
      if at_start && negb (is_space c) then
        option_map (fun n => (n, S (String.length n))) (name_colon s)
      else if Ascii.eqb c LF then
        option_map (fun n => (String LF n, S (S (String.length n))))
                   (name_colon s')
      else None
  end.

(** [re.split] with the separator above: the text before the first match and
    then, for each match, its group and the text up to the next match.
    [skip] counts the characters of the current match still to pass. *)
Fixpoint re_split_from (at_start : bool) (skip : nat) (s : string)
    : string * list (string * string) :=
  match s with
  | EmptyString => (EmptyString, [])
  | String c s' =>
      match skip with
      | S k => re_split_from false k s'
      | O =>
          match separator_here at_start s with
          | Some (grp, len) =>
              let (txt, ps) := re_split_from false (pred len) s' in
              (EmptyString, (grp, txt) :: ps)
          | None =>
              let (txt, ps) := re_split_from false 0 s' in
              (String c txt, ps)
          end
      end
  end.

Definition re_split (out : string) : string * list (string * string) :=
  re_split_from true 0 out.

Fixpoint strip_prefix (p s : string) : option string :=
  match p, s with
  | EmptyString, _ => Some s
  | String a p', String b s' =>
      if Ascii.eqb a b then strip_prefix p' s' else None
  | _, EmptyString => None
  end.

(** [n] characters of the MAC class at the head of [s]. *)
Fixpoint take_machex (n : nat) (s : string) : option string :=
  match n with
  | O => Some EmptyString
  | S n' =>
      match s with
      | String c s' =>
          if is_machex c then option_map (String c) (take_machex n' s')
          else None
      | EmptyString => None
      end
  end.

(** The keyword, one [\s], and seventeen characters of the MAC class, at the
    head of [s]. *)
Definition hwaddr_here (kw s : string) : option string :=
  match strip_prefix kw s with
  | Some (String c r) => if is_space c then take_machex 17 r else None
  | _ => None
  end.

(** [re.search]: group 1 of the leftmost match. *)
Fixpoint re_search_hwaddr (kw s : string) : option string :=
  match hwaddr_here kw s with
  | Some m => Some m
  | None =>
      match s with
      | String _ s' => re_search_hwaddr kw s'
      | EmptyString => None
      end
  end.

(** The [while blocks] loop.  After [blocks.reverse()] each [blocks.pop()]
    takes the next element in the order of the text; falling out of the loop
    returns [None]. *)
Fixpoint ifname_loop (kw : string) (mac : pyval)
    (blocks : list (string * string)) : pyval :=
  match blocks with
  | [] => None
  | (ifname, body) :: rest =>
      match re_search_hwaddr kw body with
      | Some m =>
          if pyval_eqb (Some m) mac then Some ifname
          else ifname_loop kw mac rest
      | None => ifname_loop kw mac rest
      end
  end.

(** [_get_ifname_by_mac] on the output of the listing; the first piece of
    the split is dropped.  [kw] is [ether] on FreeBSD and [address:] on
    NetBSD. *)
Definition ifname_by_mac (kw out : string) (mac : pyval) : pyval :=
  ifname_loop kw mac (snd (re_split out)).

Definition get_ifname_by_mac (kw : string) (mac : pyval) : M pyval :=
  fun w => (Ok (ifname_by_mac kw (ifconfig_a w) mac), w).

(** ** The network model handed to the renderers *)

(** A subnet dictionary; [None] is a missing key. *)
Record subnet := {
  type : pyval;
  address : pyval;
  netmask : pyval;
  gateway : pyval;
  dns_nameservers : option (list string);
  dns_search : option (list string)
}.

(** An interface dictionary of [settings.iter_interfaces()]. *)
Record interface := {
  name : pyval;
  mac_address : pyval;
  subnets : option (list subnet)
}.

(** [interface.get("subnets", [])[0]] *)
Definition first_subnet (i : interface) : M subnet :=
  match subnets i with
  | Some (sn :: _) => ret sn
  | _ => raise IndexError
  end.

(** [a + b] on values that should be strings. *)
Definition str_add (a b : pyval) : M string :=
  match a, b with
  | Some x, Some y => ret (x ++ y)
  | _, _ => raise TypeError
  end.

(** [re.match] of the loopback pattern: [lo], one or more digits, and the
    end of the text, which [$] also finds before a final line feed. *)
Definition is_loopback (s : string) : bool :=
  match s with
  | String "l" (String "o" r) =>
      let (ds, rest) := span is_digit r in
      negb (is_empty ds)
      && (is_empty rest || String.eqb rest (String LF EmptyString))
  | _ => false
  end.

(** [xs.extend(subnet[key])] under [if key in subnet]. *)
Definition extend_opt (xs : list string) (o : option (list string))
    : list string :=
  match o with
  | Some ys => (xs ++ ys)%list
  | None => xs
  end.

(** [for x in xs: st = body(x, st)] *)
Fixpoint for_each {A S : Type} (body : A -> S -> M S) (xs : list A) (st : S)
    : M S :=
  match xs with
  | [] => ret st
  | x :: rest => st' <- body x st ;; for_each body rest st'
  end.

(** ** Merging the name servers and search domains into resolv.conf *)

(** Modelled from the spec: [ResolvConf.add_nameserver], not among the
    sources.  It fails with the duplicate error if the address is already
    present and appends otherwise; the renderers catch that error as
    [ValueError]. *)
Definition add_nameserver (server : string) (rc : list directive)
    : result (list directive) :=
  if existsb (directive_eqb (Nameserver server)) rc then Raise ValueError
  else Ok (rc ++ [Nameserver server])%list.

(** Modelled from the spec: [ResolvConf.add_search_domain], not among the
    sources; same duplicate policy as for name servers. *)
Definition add_search_domain (domain : string) (rc : list directive)
    : result (list directive) :=
  if existsb (directive_eqb (SearchDomain domain)) rc then Raise ValueError
  else Ok (rc ++ [SearchDomain domain])%list.

(** [util.load_file(self.resolv_conf_fn)] followed by the parse. *)
Definition load_resolv_conf : M (list directive) :=
  fun w =>
    match resolv_conf w with
    | Some ds => (Ok ds, w)
    | None => (Raise IOError, w)
    end.

(** [for x in xs: try: add(x)  except ValueError: util.logexc(..)] *)
Fixpoint add_each (add : string -> list directive -> result (list directive))
    (msg : string) (xs : list string) (rc : list directive)
    : M (list directive) :=
  match xs with
  | [] => ret rc
  | x :: rest =>
      rc' <- try_except (lift (add x rc)) ValueError
               (emit (LogExc msg (Some x)) ;;; ret rc) ;;
      add_each add msg rest rc'
  end.

(** The tail of both [_write_network] methods, from the reading of
    resolv.conf to its writing. *)
Definition merge_resolv_conf (nameservers searchdomains : list string)
    : M unit :=
  resolvconf <- try_except load_resolv_conf IOError
                  (emit (LogExc "Failed to parse %s, use new empty file"
                                (Some "/etc/resolv.conf")) ;;;
                   ret []) ;;
  resolvconf <- add_each add_nameserver "Failed to add nameserver %s"
                  nameservers resolvconf ;;
  resolvconf <- add_each add_search_domain "Failed to add search domain %s"
                  searchdomains resolvconf ;;
  write_resolv_conf resolvconf.

(** ** The FreeBSD renderer *)

Module FreeBSD.

(** The body of [for interface in settings.iter_interfaces()]; the state is
    the pair of the lists [nameservers] and [searchdomains]. *)
Definition write_interface (i : interface) (acc : list string * list string)
    : M (list string * list string) :=
  let device_name := name i in
  let device_mac := mac_address i in
  if truthy device_name && is_loopback (fmt_s device_name) then
    ret acc                                                   (* continue *)
  else
    device_name <-
      (if truthy device_mac && truthy device_name then
         cur_name <- get_ifname_by_mac "ether" device_mac ;;
         (if negb (pyval_eqb cur_name device_name) then
            updatercconf ("ifconfig_" ++ fmt_s cur_name ++ "_name")
                         device_name
          else ret tt) ;;;
         ret device_name
       else get_ifname_by_mac "ether" device_mac) ;;
    sn <- first_subnet i ;;
    r <- (if pyval_eqb (type sn) (Some "static") then
            a <- str_add (address sn) (Some " netmask ") ;;
            ifconfig <- str_add (Some a) (netmask sn) ;;
            updatercconf "defaultrouter" (gateway sn) ;;;
            ret (ifconfig,
                 (extend_opt (fst acc) (dns_nameservers sn),
                  extend_opt (snd acc) (dns_search sn)))
          else ret ("DHCP", acc)) ;;
    key <- str_add (Some "ifconfig_") device_name ;;
    updatercconf key (Some (fst r)) ;;;
    ret (snd r).

Definition write_network (settings : list interface) : M unit :=
  acc <- for_each write_interface settings ([], []) ;;
  emit (Subp ["/etc/rc.d/netif"; "restart"]) ;;;
  emit (Subp ["/etc/rc.d/routing"; "restart"]) ;;;
  merge_resolv_conf (fst acc) (snd acc).

(** *** The store accesses of the renderer, read off its control flow *)

(** [updatercconf] for each pair in turn. *)
Fixpoint upserts (ups : list (string * pyval)) : M unit :=
  match ups with
  | [] => ret tt
  | kv :: rest => updatercconf (fst kv) (snd kv) ;;; upserts rest
  end.

(** The name the addressing key is built from: the declared name when both
    it and the MAC are present, the result of the lookup otherwise. *)
Definition device_name (out : string) (i : interface) : pyval :=
  if truthy (mac_address i) && truthy (name i) then name i
  else ifname_by_mac "ether" out (mac_address i).

(** The rename upsert, issued when name and MAC are present and the lookup
    disagrees with the name. *)
Definition rename_upsert (out : string) (i : interface)
    : list (string * pyval) :=
  let cur_name := ifname_by_mac "ether" out (mac_address i) in
  if truthy (mac_address i) && truthy (name i)
     && negb (pyval_eqb cur_name (name i))
  then [("ifconfig_" ++ fmt_s cur_name ++ "_name", name i)]
  else [].

(** The upserts one turn of the loop issues, in order, and how the turn ends
    once they have all returned. *)
Definition interface_plan (out : string) (i : interface)
    (acc : list string * list string)
    : list (string * pyval) * result (list string * list string) :=
  if truthy (name i) && is_loopback (fmt_s (name i)) then ([], Ok acc)
  else
    let rename := rename_upsert out i in
    match subnets i with
    | Some (sn :: _) =>
        if pyval_eqb (type sn) (Some "static") then
          match address sn, netmask sn with
          | Some a, Some m =>
              match device_name out i with
              | Some d =>
                  (app rename [("defaultrouter", gateway sn);
                               ("ifconfig_" ++ d,
                                Some ((a ++ " netmask ") ++ m))],
                   Ok (extend_opt (fst acc) (dns_nameservers sn),
                       extend_opt (snd acc) (dns_search sn)))
              | None =>
                  (app rename [("defaultrouter", gateway sn)],
                   Raise TypeError)
              end
          | _, _ => (rename, Raise TypeError)
          end
        else
          match device_name out i with
          | Some d => (app rename [("ifconfig_" ++ d, Some "DHCP")], Ok acc)
          | None => (rename, Raise TypeError)
          end
    | _ => (rename, Raise IndexError)
    end.


Definition run_plan {A} (p : list (string * pyval) * result A) : M A :=
  upserts (fst p) ;;; lift (snd p).


End FreeBSD.

(** ** The NetBSD renderer *)

Module NetBSD.

(** Modelled from the spec: [netbsd_util.set_rc_config_value], not among the
    sources, is the upsert of the key/value store.  The call is recorded
    with its arguments; what it does to the file is left uninterpreted. *)
Definition set_rc_config_value (key : string) (value : pyval) : M unit :=
  emit (SetRcConfigValue key value).

(** [w] with one more element in [self.dhcp_interfaces]. *)
Definition with_dhcp (w : world) (v : pyval) : world :=
  {| rc_conf := rc_conf w; resolv_conf := resolv_conf w;
     ifconfig_a := ifconfig_a w;
     dhcp_interfaces := (dhcp_interfaces w ++ [v])%list;
     postcmds := postcmds w; trace := trace w |}.

(** [self.dhcp_interfaces.append(v)] *)
Definition dhcp_append (v : pyval) : M unit :=
  fun w => (Ok tt, with_dhcp w v).

(** [sep.join(xs)]: every element has to be a string. *)
Fixpoint join (sep : string) (xs : list pyval) : result string :=
  match xs with
  | [] => Ok EmptyString
  | [Some x] => Ok x
  | Some x :: rest =>
      match join sep rest with
      | Ok r => Ok (x ++ sep ++ r)
      | Raise e => Raise e
      end
  | None :: _ => Raise TypeError
  end.

Definition write_interface (i : interface) (acc : list string * list string)
    : M (list string * list string) :=
  let device_mac := mac_address i in
  let device_name := name i in
  device_name <-
    (if truthy device_mac then get_ifname_by_mac "address:" device_mac
     else ret device_name) ;;
  sn <- first_subnet i ;;
  if pyval_eqb (type sn) (Some "static") then
    a <- str_add (address sn) (Some " netmask ") ;;
    ifconfig <- str_add (Some a) (netmask sn) ;;
    (if truthy (gateway sn) then
       set_rc_config_value "defaultroute" (gateway sn)
     else ret tt) ;;;
    key <- str_add (Some "ifconfig_") device_name ;;
    set_rc_config_value key (Some ifconfig) ;;;
    ret (extend_opt (fst acc) (dns_nameservers sn),
         extend_opt (snd acc) (dns_search sn))
  else
    dhcp_append device_name ;;; ret acc.

Definition start_services : M unit :=
  fun w =>
    if negb (postcmds w) then (Ok tt, w)
    else
      (emit (Subp ["service"; "network"; "restart"]) ;;;
       match dhcp_interfaces w with
       | [] => ret tt
       | _ => emit (Subp ["service"; "dhcpcd"; "restart"])
       end) w.

(** The block under [if self.dhcp_interfaces:] after the loop. *)
Definition write_dhcpcd : M unit :=
  fun w =>
    match dhcp_interfaces w with
    | [] => (Ok tt, w)
    | dh =>
        (set_rc_config_value "dhcpcd" (Some "YES") ;;;
         flags <- lift (join " " dh) ;;
         set_rc_config_value "dhcpcd_flags" (Some flags)) w
    end.

Definition write_network (settings : list interface) : M unit :=
  acc <- for_each write_interface settings ([], []) ;;
  write_dhcpcd ;;;
  merge_resolv_conf (fst acc) (snd acc) ;;;
  start_services.

(** The name [write_interface] goes on with: the result of the lookup when
    there is a MAC, the declared name otherwise. *)
Definition device_name (out : string) (i : interface) : pyval :=
  if truthy (mac_address i) then ifname_by_mac "address:" out (mac_address i)
  else name i.

End NetBSD.

(** ** Vocabulary of the statements *)

Definition quoted (q : ascii) (s : string) : string :=
  String q (s ++ String q EmptyString).

(** A line of the store file: key, equals sign, value between two quote
    characters. *)
Definition rc_entry (k : string) (q1 : ascii) (v : string) (q2 : ascii)
    : string :=
  k ++ String "="%char (String q1 (v ++ String q2 EmptyString)).

Definition no_linebreak (s : string) : bool :=
  forallb_str (fun c => negb (is_linebreak c)) s.

(** Keys that the loader reads back: one or more word characters. *)
Definition wf_key (k : string) : bool :=
  negb (is_empty k) && forallb_str is_word k.

(** Values that the loader reads back from between the quotes the writer
    puts around them: not empty and without line boundary. *)
Definition wf_value (s : string) : bool :=
  negb (is_empty s) && no_linebreak s.

Definition wf_item (kv : string * pyval) : bool :=
  wf_key (fst kv) && wf_value (fmt_s (snd kv)).

(** An item whose value is a string, not [None]. *)
Definition str_item (kv : string * pyval) : bool :=
  wf_key (fst kv)
  && match snd kv with Some s => wf_value s | None => false end.

(** What the loader returns: unique keys and string items. *)
Definition canonical (d : dict) : Prop :=
  NoDup (dict_keys d) /\ forallb str_item d = true.

Definition set_item (d : dict) (kv : string * pyval) : dict :=
  dict_set (fst kv) (Some (fmt_s (snd kv))) d.

(** The store file exists and holds [conf]. *)
Definition store (w : world) (conf : dict) : Prop :=
  exists text, rc_conf w = Some text /\ loadrcconf_text text = Ok conf.

(** The key is present with that very value. *)
Definition unchanged_by (k : string) (v : pyval) (conf : dict) : bool :=
  match dict_get k conf with
  | Some cur => pyval_eqb cur v
  | None => false
  end.


(** The resolver configuration a render starts from. *)
Definition resolv_start (w : world) : list directive :=
  match resolv_conf w with Some ds => ds | None => [] end.

Fixpoint count_dir (d : directive) (ds : list directive) : nat :=
  match ds with
  | [] => 0
  | x :: rest => (if directive_eqb d x then 1 else 0) + count_dir d rest
  end.

Definition is_rc_write (ev : event) : bool :=
  match ev with WriteRcConf _ => true | _ => false end.


(** What the duplicate-safe adds of a list of entries make of a resolver
    configuration. *)
Definition add_all (C : string -> directive) (xs : list string)
    (rc : list directive) : list directive :=
  fold_left (fun rc x =>
               if existsb (directive_eqb (C x)) rc then rc
               else (rc ++ [C x])%list) xs rc.

(** [w] with the events [evs], newest first, in front of its trace. *)
Definition push_events (evs : list event) (w : world) : world :=
  {| rc_conf := rc_conf w; resolv_conf := resolv_conf w;
     ifconfig_a := ifconfig_a w; dhcp_interfaces := dhcp_interfaces w;
     postcmds := postcmds w; trace := (evs ++ trace w)%list |}.

(** [w] after resolv.conf was written with [ds]. *)
Definition with_resolv (ds : list directive) (w : world) : world :=
  {| rc_conf := rc_conf w; resolv_conf := Some ds;
     ifconfig_a := ifconfig_a w; dhcp_interfaces := dhcp_interfaces w;
     postcmds := postcmds w; trace := WriteResolvConf ds :: trace w |}.


Definition no_rc_write (evs : list event) : bool :=
  forallb (fun ev => negb (is_rc_write ev)) evs.

(** ** Sample inputs *)

Definition nl : string := String LF EmptyString.
Definition tab : string := String TAB EmptyString.

(** What [ifconfig -a] prints on a FreeBSD guest with one virtio NIC. *)
Definition listing_freebsd : string :=
  "vtnet0: flags=8843<UP,BROADCAST,RUNNING,SIMPLEX,MULTICAST> metric 0 mtu 1500"
  ++ nl ++ tab ++ "options=6c07bb<RXCSUM,TXCSUM,VLAN_MTU>"
  ++ nl ++ tab ++ "ether aa:bb:cc:dd:ee:ff"
  ++ nl ++ tab ++ "inet 192.168.1.5 netmask 0xffffff00 broadcast 192.168.1.255"
  ++ nl ++ "lo0: flags=8049<UP,LOOPBACK,RUNNING,MULTICAST> metric 0 mtu 16384"
  ++ nl ++ tab ++ "inet6 fe80::1%lo0 prefixlen 64 scopeid 0x2"
  ++ nl ++ tab ++ "inet 127.0.0.1 netmask 0xff000000"
  ++ nl.

(** The same on a NetBSD guest. *)
Definition listing_netbsd : string :=
  "vioif0: flags=0x8843<UP,BROADCAST,RUNNING,SIMPLEX,MULTICAST> mtu 1500"
  ++ nl ++ tab ++ "address: aa:bb:cc:dd:ee:ff"
  ++ nl ++ tab ++ "inet 10.0.2.15/24 broadcast 10.0.2.255 flags 0x0"
  ++ nl ++ "lo0: flags=0x8049<UP,LOOPBACK,RUNNING,MULTICAST> mtu 33624"
  ++ nl ++ tab ++ "inet 127.0.0.1/8 flags 0x0"
  ++ nl.

Definition mac1 : string := "aa:bb:cc:dd:ee:ff".

(** A world with the given store file and listing, an empty resolv.conf and
    an empty trace. *)
Definition world_of (rc : option string) (listing : string) : world :=
  {| rc_conf := rc; resolv_conf := Some []; ifconfig_a := listing;
     dhcp_interfaces := []; postcmds := true; trace := [] |}.

Definition dhcp_subnet : subnet :=
  {| type := Some "dhcp"; address := None; netmask := None; gateway := None;
     dns_nameservers := None; dns_search := None |}.

Definition static_subnet (a m : string) (g : pyval) : subnet :=
  {| type := Some "static"; address := Some a; netmask := Some m;
     gateway := g; dns_nameservers := None; dns_search := None |}.

Definition iface (n m : pyval) (sns : list subnet) : interface :=
  {| name := n; mac_address := m; subnets := Some sns |}.

(** Declared as [eth0], found as [vtnet0] by its MAC; DHCP. *)
Definition eth0_dhcp : interface :=
  iface (Some "eth0") (Some mac1) [dhcp_subnet].

(** No name, and a MAC that the listing does not have. *)
Definition ghost_dhcp : interface :=
  iface None (Some "00:00:00:00:00:01") [dhcp_subnet].

Definition lo0_dhcp : interface := iface (Some "lo0") None [dhcp_subnet].

Definition lo0_no_subnet : interface := iface (Some "lo0") None [].

Definition vioif0_dhcp : interface :=
  iface (Some "vioif0") (Some mac1) [dhcp_subnet].

(** A static address without a gateway. *)
Definition vtnet0_static_no_gw : interface :=
  iface (Some "vtnet0") (Some mac1)
        [static_subnet "192.168.1.5" "255.255.255.0" None].

Definition vioif0_static_no_gw : interface :=
  iface (Some "vioif0") (Some mac1)
        [static_subnet "192.168.1.5" "255.255.255.0" None].



(** ** The FreeBSD distro: host name and interface names

    [cloudinit/distros/freebsd.py] has its own copies of [loadrcconf],
    [updatercconf] and [readrcconf], the same text as in the renderer, and
    builds the host name methods and [getnetifname] on them. *)

Module FreeBSDDistro.

(** [_select_hostname] *)
Definition select_hostname (hostname fqdn : pyval) : pyval :=
  if truthy fqdn then fqdn else hostname.

(** [_read_hostname]: [hostname] starts as [None], the [IOError] of
    [readrcconf] is passed over, and a false [hostname] gives [default]. *)
Definition read_hostname (default : pyval) : M pyval :=
  hostname <- try_except (readrcconf "hostname") IOError (ret None) ;;
  if truthy hostname then ret hostname else ret default.

(** [_read_system_hostname] *)
Definition read_system_hostname : M (string * pyval) :=
  sys_hostname <- read_hostname None ;; ret ("rc.conf", sys_hostname).

(** [_write_hostname] *)
Definition write_hostname (hostname : pyval) : M unit :=
  updatercconf "hostname" hostname.

(** The one exception [getnetifname] can raise itself: [n.group(0)] when
    [re.search] gave [None]. *)
Inductive raised := AttributeError.

(** [s.startswith('lo')] *)
Definition startswith_lo (s : string) : bool :=
  match s with
  | String "l" (String "o" _) => true
  | _ => false
  end.

(** Where [$] matches: at the end of the text, or before a line feed that is
    its last character. *)
Definition at_end (s : string) : bool :=
  is_empty s || String.eqb s (String LF EmptyString).

(** [re.search] of one or more digits followed by [$]: group 0 of the
    leftmost match.  At a position the greedy run of digits has to reach
    [$]; a shorter run is followed by a digit. *)
Fixpoint search_trailing_digits (s : string) : option string :=
  match s with
  | EmptyString => None
  | String c s' =>
      let (ds, rest) := span is_digit s in
      if negb (is_empty ds) && at_end rest then Some ds
      else search_trailing_digits s'
  end.

(** [re.sub] of the same pattern by [repl], a text of digits, which the
    replacement template takes literally.  Nothing can match after the first
    match. *)
Fixpoint sub_trailing_digits (repl s : string) : string :=
  match s with
  | EmptyString => EmptyString
  | String c s' =>
      let (ds, rest) := span is_digit s in
      if negb (is_empty ds) && at_end rest then repl ++ rest
      else String c (sub_trailing_digits repl s')
  end.

(** [s.strip()] *)
Definition strip (s : string) : string := rstrip (skip_spaces s).

(** [len(x.split()) > 0]: the line has a character that is not a space. *)
Definition has_token (x : string) : bool := negb (forallb_str is_space x).

(** The [for line in ifconfigoutput] loop: the first line that begins with
    word characters not starting with [lo] gives them; [bsddev] is
    [NOT_FOUND] if there is none. *)
Fixpoint first_adapter (lines : list string) : string :=
  match lines with
  | [] => "NOT_FOUND"
  | line :: rest =>
      let w := fst (span is_word line) in
      if is_empty w then first_adapter rest
      else if startswith_lo w then first_adapter rest      (* continue *)
      else w                                               (* break *)
  end.

(** [getnetifname] on the output of the listing. *)
Definition getnetifname (out dev : string) : string + raised :=
  if startswith_lo dev then inl dev
  else
    match search_trailing_digits dev with
    | None => inr AttributeError
    | Some index =>
        inl (sub_trailing_digits index
               (first_adapter
                  (List.filter has_token (splitlines (strip out)))))
    end.

End FreeBSDDistro.

(** ** More vocabulary *)

(** The line written for an item. *)
Definition entry_line (kv : string * pyval) : string :=
  rc_entry (fst kv) dquote (fmt_s (snd kv)) dquote.

Definition starts_with_LF (s : string) : bool :=
  match s with
  | String c _ => Ascii.eqb c LF
  | EmptyString => false
  end.

(** What [readrcconf] gives for a key of a dictionary. *)
Definition lookup (k : string) (conf : dict) : pyval :=
  match dict_get k conf with Some v => v | None => None end.

(** The first subnet of the interface exists and is not static. *)
Definition dhcp_first (i : interface) : bool :=
  match subnets i with
  | Some (sn :: _) => negb (pyval_eqb (type sn) (Some "static"))
  | _ => false
  end.

(** One or more digits. *)
Definition digits (s : string) : bool :=
  negb (is_empty s) && forallb_str is_digit s.

(** The text is empty or its last character is not a digit. *)
Definition no_digit_at_end (s : string) : bool :=
  match last_char s with
  | Some c => negb (is_digit c)
  | None => true
  end.

(** The text is empty or its last character is neither a digit nor a line
    feed: it has no number at its end. *)
Definition no_index (s : string) : bool :=
  match last_char s with
  | Some c => negb (is_digit c) && negb (Ascii.eqb c LF)
  | None => true
  end.

(** No line of the listing begins with word characters other than a name
    in [lo]. *)
Definition no_adapter (out : string) : bool :=
  forallb (fun line =>
             let w := fst (span is_word line) in
             is_empty w || FreeBSDDistro.startswith_lo w)
          (splitlines (FreeBSDDistro.strip out)).

(** A store file with a comment, a blank line and one entry. *)
Definition commented_store : string :=
  "# set by the installer" ++ nl ++ nl
  ++ rc_entry "hostname" squote "old" squote ++ nl.

(** * Properties *)

(** ** Characters and strings *)

Lemma word_not_space c : is_word c = true -> is_space c = false.
Proof. destruct c as [[] [] [] [] [] [] [] []]; vm_compute; congruence. Qed.

Lemma quote_not_space c : is_quote c = true -> is_space c = false.
Proof. destruct c as [[] [] [] [] [] [] [] []]; vm_compute; congruence. Qed.

Lemma not_linebreak_not_LF c : is_linebreak c = false -> Ascii.eqb c LF = false.
Proof. destruct c as [[] [] [] [] [] [] [] []]; vm_compute; congruence. Qed.

Lemma append_nil_r (s : string) : s ++ EmptyString = s.
Proof. induction s; simpl; congruence. Qed.

Lemma append_assoc (a b c : string) : (a ++ b) ++ c = a ++ (b ++ c).
Proof. induction a; simpl; congruence. Qed.

Lemma span_stop p k c r :
  forallb_str p k = true -> p c = false ->
  span p (k ++ String c r) = (k, String c r).
Proof.
  induction k as [|a k IH]; simpl; intros Hk Hc.
  - now rewrite Hc.
  - apply andb_true_iff in Hk as [Ha Hk]. now rewrite Ha, IH.
Qed.

Lemma span_all p k : forallb_str p k = true -> span p k = (k, EmptyString).
Proof.
  induction k as [|a k IH]; simpl; intros Hk; [reflexivity|].
  apply andb_true_iff in Hk as [Ha Hk]. now rewrite Ha, IH.
Qed.

Lemma rstrip_nonspace k :
  forallb_str (fun c => negb (is_space c)) k = true -> rstrip k = k.
Proof.
  induction k as [|a k IH]; simpl; intros Hk; [reflexivity|].
  apply andb_true_iff in Hk as [Ha Hk]. rewrite IH by assumption.
  apply negb_true_iff in Ha. rewrite Ha. now destruct k.
Qed.

Lemma rstrip_snoc s c :
  is_space c = false -> rstrip (s ++ String c EmptyString) = s ++ String c EmptyString.
Proof.
  intros Hc. induction s as [|a s IH]; simpl.
  - now rewrite Hc.
  - rewrite IH. now destruct s.
Qed.

Lemma last_char_snoc s c : last_char (s ++ String c EmptyString) = Some c.
Proof.
  induction s as [|a s IH]; simpl; [reflexivity|].
  rewrite IH. now destruct s.
Qed.

Lemma drop_last_snoc s c : drop_last (s ++ String c EmptyString) = s.
Proof.
  induction s as [|a s IH]; simpl; [reflexivity|].
  rewrite IH. now destruct s.
Qed.

Lemma splitlines_line b l rest :
  no_linebreak l = true ->
  (b = false \/ l <> EmptyString) ->
  splitlines_from b (l ++ String LF rest) = l :: splitlines_from false rest.
Proof.
  revert b. induction l as [|a l IH]; simpl; intros b Hl Hb.
  - destruct Hb as [-> | Hb]; [reflexivity | congruence].
  - apply andb_true_iff in Hl as [Ha Hl]. apply negb_true_iff in Ha.
    rewrite (not_linebreak_not_LF _ Ha), andb_false_r, Ha.
    rewrite (IH false) by auto. reflexivity.
Qed.


Lemma word_not_linebreak c : is_word c = true -> is_linebreak c = false.
Proof. destruct c as [[] [] [] [] [] [] [] []]; vm_compute; congruence. Qed.

Lemma quote_not_linebreak c : is_quote c = true -> is_linebreak c = false.
Proof. destruct c as [[] [] [] [] [] [] [] []]; vm_compute; congruence. Qed.

Lemma forallb_str_app p a b :
  forallb_str p (a ++ b) = forallb_str p a && forallb_str p b.
Proof. induction a as [|c a IH]; simpl; [reflexivity|]. now rewrite IH, andb_assoc. Qed.

Lemma forallb_str_impl (p q : ascii -> bool) s :
  (forall c, p c = true -> q c = true) ->
  forallb_str p s = true -> forallb_str q s = true.
Proof.
  intros Hpq. induction s as [|c s IH]; simpl; [reflexivity|].
  intros H. apply andb_true_iff in H as [Hc Hs].
  now rewrite (Hpq _ Hc), IH.
Qed.

Lemma wf_key_inv k :
  wf_key k = true -> k <> EmptyString /\ forallb_str is_word k = true.
Proof.
  unfold wf_key. intros H. apply andb_true_iff in H as [H1 H2].
  split; [|assumption]. now destruct k.
Qed.

Lemma wf_value_inv v :
  wf_value v = true -> v <> EmptyString /\ no_linebreak v = true.
Proof.
  unfold wf_value. intros H. apply andb_true_iff in H as [H1 H2].
  split; [|assumption]. now destruct v.
Qed.

Lemma RE_MATCH_entry k q1 v q2 :
  wf_key k = true -> is_quote q1 = true ->
  forallb_str (fun x => negb (Ascii.eqb x LF)) v = true ->
  is_quote q2 = true ->
  RE_MATCH (rc_entry k q1 v q2) = Some (k, String q1 (v ++ String q2 EmptyString)).
Proof.
  intros Hk Hq1 Hv Hq2. apply wf_key_inv in Hk as [Hne Hw].
  unfold RE_MATCH, rc_entry.
  rewrite (span_stop is_word k _ _ Hw) by reflexivity.
  destruct k as [|a k]; [congruence|]. cbn [is_empty].
  unfold skip_spaces. cbn [span is_space]. simpl.
  rewrite (quote_not_space _ Hq1). cbn [snd].
  assert (Hq1' : negb (Ascii.eqb q1 LF) = true).
  { rewrite (not_linebreak_not_LF _ (quote_not_linebreak _ Hq1)). reflexivity. }
  assert (Hq2' : negb (Ascii.eqb q2 LF) = true).
  { rewrite (not_linebreak_not_LF _ (quote_not_linebreak _ Hq2)). reflexivity. }
  rewrite span_all; [reflexivity|].
  simpl. rewrite Hq1'. simpl. rewrite forallb_str_app, Hv. simpl. now rewrite Hq2'.
Qed.

Lemma kill_quotes_quoted q1 v q2 :
  is_quote q1 = true -> is_quote q2 = true ->
  kill_quotes (String q1 (v ++ String q2 EmptyString))
  = Ok (if is_empty v then None else Some v).
Proof.
  intros Hq1 Hq2. unfold kill_quotes. rewrite Hq1.
  rewrite last_char_snoc, Hq2, drop_last_snoc. now destruct v.
Qed.

Lemma loadrcconf_line_entry conf k q1 v q2 :
  wf_key k = true -> is_quote q1 = true ->
  forallb_str (fun x => negb (Ascii.eqb x LF)) v = true ->
  is_quote q2 = true ->
  loadrcconf_line conf (rc_entry k q1 v q2)
  = Ok (if is_empty v then conf else dict_set k (Some v) conf).
Proof.
  intros Hk Hq1 Hv Hq2. unfold loadrcconf_line.
  rewrite RE_MATCH_entry by assumption.
  change (String q1 (v ++ String q2 EmptyString))
    with ((String q1 v) ++ String q2 EmptyString).
  rewrite rstrip_snoc by now apply quote_not_space.
  cbn [append]. rewrite kill_quotes_quoted by assumption.
  rewrite rstrip_nonspace.
  - destruct (is_empty v); reflexivity.
  - apply wf_key_inv in Hk as [_ Hw].
    revert Hw. apply forallb_str_impl. intros c Hc.
    now rewrite (word_not_space _ Hc).
Qed.

(** ** Dictionaries *)

Lemma pyval_eqb_spec a b : pyval_eqb a b = true <-> a = b.
Proof.
  destruct a as [x|], b as [y|]; simpl; try (split; congruence).
  rewrite String.eqb_eq. split; congruence.
Qed.

Lemma pyval_eqb_refl a : pyval_eqb a a = true.
Proof. now apply pyval_eqb_spec. Qed.

Lemma dict_get_set_same k v d : dict_get k (dict_set k v d) = Some v.
Proof.
  induction d as [|[k' v'] d IH]; simpl.
  - now rewrite String.eqb_refl.
  - destruct (String.eqb k' k) eqn:E; simpl; rewrite E; auto.
Qed.

Lemma dict_get_set_other k k' v d :
  k <> k' -> dict_get k' (dict_set k v d) = dict_get k' d.
Proof.
  intros Hne. induction d as [|[k0 v0] d IH]; simpl.
  - destruct (String.eqb k k') eqn:E; [|reflexivity].
    apply String.eqb_eq in E. congruence.
  - destruct (String.eqb k0 k) eqn:E; simpl; [|now rewrite IH].
    apply String.eqb_eq in E. subst k0.
    destruct (String.eqb k k') eqn:E'; [|reflexivity].
    apply String.eqb_eq in E'. congruence.
Qed.

Lemma dict_get_None_keys k d : dict_get k d = None <-> ~ In k (dict_keys d).
Proof.
  induction d as [|[k' v'] d IH]; simpl; [tauto|].
  destruct (String.eqb k' k) eqn:E.
  - apply String.eqb_eq in E. split; [congruence | intros H; exfalso; auto].
  - apply String.eqb_neq in E. rewrite IH. tauto.
Qed.

Lemma dict_get_Some_keys k v d : dict_get k d = Some v -> In k (dict_keys d).
Proof.
  intros H. destruct (in_dec string_dec k (dict_keys d)) as [|n]; [assumption|].
  apply dict_get_None_keys in n. congruence.
Qed.

Lemma dict_set_fresh k v d :
  dict_get k d = None -> dict_set k v d = (d ++ [(k, v)])%list.
Proof.
  induction d as [|[k' v'] d IH]; simpl; [reflexivity|].
  destruct (String.eqb k' k); [discriminate|]. intros H. now rewrite IH.
Qed.

Lemma dict_set_same k v d : dict_get k d = Some v -> dict_set k v d = d.
Proof.
  induction d as [|[k' v'] d IH]; simpl; [discriminate|].
  destruct (String.eqb k' k) eqn:E; intros H.
  - congruence.
  - now rewrite IH.
Qed.

Lemma dict_keys_set k v d :
  dict_keys (dict_set k v d)
  = if dict_mem k d then dict_keys d else (dict_keys d ++ [k])%list.
Proof.
  unfold dict_mem. induction d as [|[k' v'] d IH]; simpl; [reflexivity|].
  destruct (String.eqb k' k) eqn:E; simpl; [reflexivity|].
  rewrite IH. now destruct (dict_get k d).
Qed.

Lemma forallb_dict_set (p : string * pyval -> bool) k v d :
  forallb p d = true -> p (k, v) = true ->
  (forall k' v', String.eqb k' k = true -> p (k', v') = true -> p (k', v) = true) ->
  forallb p (dict_set k v d) = true.
Proof.
  intros Hd Hp Hk. induction d as [|[k' v'] d IH]; simpl in *.
  - now rewrite Hp.
  - apply andb_true_iff in Hd as [H1 H2].
    destruct (String.eqb k' k) eqn:E; simpl.
    + rewrite (Hk _ _ E H1). assumption.
    + rewrite H1. auto.
Qed.

Lemma canonical_set k v d :
  canonical d -> wf_key k = true -> wf_value v = true ->
  canonical (dict_set k (Some v) d).
Proof.
  intros [Hnd Hall] Hk Hv. split.
  - rewrite dict_keys_set. unfold dict_mem.
    destruct (dict_get k d) eqn:E; [assumption|].
    apply dict_get_None_keys in E.
    apply NoDup_app; [assumption | repeat constructor; simpl; tauto |].
    intros x Hx [<-|[]]. contradiction.
  - apply forallb_dict_set; [assumption | unfold str_item; simpl; now rewrite Hk, Hv |].
    intros k' v' E _. apply String.eqb_eq in E. subst k'.
    unfold str_item; simpl. now rewrite Hk, Hv.
Qed.

(** ** What the loader returns *)
Lemma span_forall_fst p s : forallb_str p (fst (span p s)) = true.
Proof.
  induction s as [|c s IH]; simpl; [reflexivity|].
  destruct (p c) eqn:E; [|reflexivity].
  destruct (span p s); simpl in *. now rewrite E.
Qed.

Lemma span_preserves q p s :
  forallb_str q s = true ->
  forallb_str q (fst (span p s)) = true /\ forallb_str q (snd (span p s)) = true.
Proof.
  induction s as [|c s IH]; simpl; [auto|].
  intros H. apply andb_true_iff in H as [Hc Hs].
  destruct (p c); simpl.
  - destruct (span p s); simpl in *. destruct (IH Hs). now rewrite Hc.
  - now rewrite Hc, Hs.
Qed.

Lemma rstrip_preserves q s :
  forallb_str q s = true -> forallb_str q (rstrip s) = true.
Proof.
  induction s as [|c s IH]; simpl; [auto|].
  intros H. apply andb_true_iff in H as [Hc Hs]. specialize (IH Hs).
  destruct (rstrip s); simpl in *.
  - destruct (is_space c); simpl; [reflexivity | now rewrite Hc].
  - now rewrite Hc.
Qed.

Lemma drop_last_preserves q s :
  forallb_str q s = true -> forallb_str q (drop_last s) = true.
Proof.
  induction s as [|c s IH]; simpl; [auto|].
  intros H. apply andb_true_iff in H as [Hc Hs]. specialize (IH Hs).
  destruct s; simpl in *; [reflexivity | now rewrite Hc].
Qed.

Lemma splitlines_no_linebreak b s :
  Forall (fun l => no_linebreak l = true) (splitlines_from b s).
Proof.
  revert b. induction s as [|c s IH]; intros b; simpl; [constructor|].
  destruct (b && Ascii.eqb c LF); [apply IH|].
  destruct (is_linebreak c) eqn:E.
  - constructor; [reflexivity | apply IH].
  - specialize (IH false). destruct (splitlines_from false s).
    + repeat constructor. unfold no_linebreak; simpl. now rewrite E.
    + inversion IH; subst. constructor; [|assumption].
      unfold no_linebreak in *; simpl. now rewrite E.
Qed.

Lemma RE_MATCH_groups line g1 g2 :
  RE_MATCH line = Some (g1, g2) ->
  wf_key g1 = true /\ (no_linebreak line = true -> no_linebreak g2 = true).
Proof.
  unfold RE_MATCH. pose proof (span_forall_fst is_word line) as Hw.
  pose proof (span_preserves (fun c => negb (is_linebreak c)) is_word line) as Hp.
  destruct (span is_word line) as [w r1]. simpl in Hw, Hp.
  destruct (is_empty w) eqn:Ew; [discriminate|].
  unfold skip_spaces.
  pose proof (span_preserves (fun c => negb (is_linebreak c)) is_space r1) as Hp1.
  destruct (snd (span is_space r1)) as [|c r2]; [discriminate|].
  destruct (Ascii.eqb c "="%char); [|discriminate].
  intros H. injection H as <- <-. split.
  - unfold wf_key. now rewrite Ew, Hw.
  - intros Hl. destruct (Hp Hl) as [_ Hr1]. destruct (Hp1 Hr1) as [_ Hr2].
    simpl in Hr2. apply andb_true_iff in Hr2 as [_ Hr2].
    pose proof (span_preserves (fun c => negb (is_linebreak c)) is_space r2 Hr2) as [_ Hr3].
    now apply span_preserves.
Qed.

Lemma kill_quotes_value val v :
  kill_quotes val = Ok (Some v) -> no_linebreak val = true -> wf_value v = true.
Proof.
  unfold kill_quotes. destruct val as [|c0 rest]; [discriminate|].
  set (val1 := if is_quote c0 then rest else String c0 rest).
  intros H Hv.
  assert (Hv1 : no_linebreak val1 = true).
  { unfold val1. destruct (is_quote c0); [|assumption].
    unfold no_linebreak in Hv. simpl in Hv. now apply andb_true_iff in Hv as [_ ?]. }
  destruct (last_char val1) as [cl|]; [|discriminate].
  set (val2 := if is_quote cl then drop_last val1 else val1) in *.
  assert (Hv2 : no_linebreak val2 = true).
  { unfold val2. destruct (is_quote cl); [|assumption].
    now apply drop_last_preserves. }
  destruct (is_empty val2) eqn:E; [discriminate|].
  injection H as <-. unfold wf_value. now rewrite E, Hv2.
Qed.

Lemma loadrcconf_line_canonical conf line conf' :
  canonical conf -> no_linebreak line = true ->
  loadrcconf_line conf line = Ok conf' -> canonical conf'.
Proof.
  intros Hc Hl. unfold loadrcconf_line.
  destruct (RE_MATCH line) as [[g1 g2]|] eqn:Em; [|congruence].
  apply RE_MATCH_groups in Em as [Hk Hg2]. specialize (Hg2 Hl).
  destruct (kill_quotes (rstrip g2)) as [[v|]|] eqn:Ek; try congruence.
  intros H. injection H as <-.
  apply kill_quotes_value in Ek; [|now apply rstrip_preserves].
  apply canonical_set; try assumption.
  rewrite rstrip_nonspace; [assumption|].
  apply wf_key_inv in Hk as [_ Hw]. revert Hw. apply forallb_str_impl.
  intros c Hcw. now rewrite (word_not_space _ Hcw).
Qed.

Lemma loadrcconf_lines_canonical lines : forall conf conf',
  canonical conf -> Forall (fun l => no_linebreak l = true) lines ->
  loadrcconf_lines conf lines = Ok conf' -> canonical conf'.
Proof.
  induction lines as [|l ls IH]; simpl; intros conf conf' Hc Hls H.
  - injection H as <-. assumption.
  - inversion Hls; subst.
    destruct (loadrcconf_line conf l) as [c1|] eqn:E; [|discriminate].
    apply (IH c1); [|assumption|assumption].
    now apply (loadrcconf_line_canonical conf l).
Qed.

Lemma loadrcconf_text_canonical text conf :
  loadrcconf_text text = Ok conf -> canonical conf.
Proof.
  unfold loadrcconf_text. apply loadrcconf_lines_canonical.
  - split; [constructor | reflexivity].
  - apply splitlines_no_linebreak.
Qed.

(** ** Writing the store and loading it again *)
Lemma rcconf_text_cons kv d :
  rcconf_text (kv :: d)
  = rc_entry (fst kv) dquote (fmt_s (snd kv)) dquote ++ String LF (rcconf_text d).
Proof.
  simpl. unfold rcconf_line, rc_entry.
  rewrite !append_assoc. simpl. rewrite !append_assoc. reflexivity.
Qed.

Lemma wf_key_no_linebreak k : wf_key k = true -> no_linebreak k = true.
Proof.
  intros H. apply wf_key_inv in H as [_ H]. revert H.
  apply forallb_str_impl. intros c Hc. now rewrite (word_not_linebreak _ Hc).
Qed.

Lemma no_linebreak_no_LF v :
  no_linebreak v = true ->
  forallb_str (fun x => negb (Ascii.eqb x LF)) v = true.
Proof.
  apply forallb_str_impl. intros c Hc. apply negb_true_iff in Hc.
  now rewrite (not_linebreak_not_LF _ Hc).
Qed.

Lemma rc_entry_no_linebreak k q1 v q2 :
  wf_key k = true -> is_quote q1 = true -> no_linebreak v = true ->
  is_quote q2 = true -> no_linebreak (rc_entry k q1 v q2) = true.
Proof.
  intros Hk Hq1 Hv Hq2. unfold rc_entry, no_linebreak.
  rewrite forallb_str_app. fold (no_linebreak k).
  rewrite (wf_key_no_linebreak _ Hk). simpl.
  rewrite (quote_not_linebreak _ Hq1). simpl.
  rewrite forallb_str_app. fold (no_linebreak v). rewrite Hv. simpl.
  now rewrite (quote_not_linebreak _ Hq2).
Qed.

Lemma rc_entry_nonempty k q1 v q2 : rc_entry k q1 v q2 <> EmptyString.
Proof. unfold rc_entry. destruct k; discriminate. Qed.

Lemma loadrcconf_lines_text d : forall acc,
  forallb wf_item d = true ->
  loadrcconf_lines acc (splitlines (rcconf_text d))
  = Ok (fold_left set_item d acc).
Proof.
  induction d as [|[k v] d IH]; intros acc Hd; [reflexivity|].
  simpl in Hd. apply andb_true_iff in Hd as [Hkv Hd].
  unfold wf_item in Hkv. simpl in Hkv. apply andb_true_iff in Hkv as [Hk Hv].
  apply wf_value_inv in Hv as [Hne Hv].
  rewrite rcconf_text_cons. unfold splitlines.
  rewrite splitlines_line; [|now apply rc_entry_no_linebreak | now left].
  cbn [loadrcconf_lines fst snd].
  rewrite loadrcconf_line_entry;
    [|assumption | reflexivity | now apply no_linebreak_no_LF | reflexivity].
  destruct (fmt_s v) eqn:E; [congruence|]. cbn [is_empty].
  rewrite <- E. apply IH. assumption.
Qed.

Lemma fold_set_item_fresh d : forall acc,
  NoDup (dict_keys d) ->
  (forall k, In k (dict_keys d) -> dict_get k acc = None) ->
  fold_left set_item d acc
  = (acc ++ map (fun kv => (fst kv, Some (fmt_s (snd kv)))) d)%list.
Proof.
  induction d as [|[k v] d IH]; intros acc Hnd Hfresh; simpl.
  - now rewrite app_nil_r.
  - inversion Hnd; subst. unfold set_item at 2. simpl.
    rewrite dict_set_fresh by (apply Hfresh; simpl; auto).
    rewrite IH; [now rewrite <- app_assoc | assumption |].
    intros k' Hk'. apply dict_get_None_keys. unfold dict_keys.
    rewrite map_app, in_app_iff. simpl. intros [Hin|[->|[]]].
    + assert (dict_get k' acc = None) by (apply Hfresh; simpl; auto).
      apply dict_get_None_keys in H. contradiction.
    + contradiction.
Qed.

Lemma canonical_map_id d :
  canonical d -> map (fun kv => (fst kv, Some (fmt_s (snd kv)))) d = d.
Proof.
  intros [_ H]. induction d as [|[k [v|]] d IH]; simpl in *; [reflexivity| |].
  - apply andb_true_iff in H as [_ H]. now rewrite IH.
  - unfold str_item in H. simpl in H. rewrite andb_false_r in H. discriminate.
Qed.

Lemma canonical_wf d : canonical d -> forallb wf_item d = true.
Proof.
  intros [_ H]. induction d as [|[k [v|]] d IH]; simpl in *; [reflexivity| |].
  - apply andb_true_iff in H as [H1 H]. rewrite IH by assumption.
    unfold wf_item, str_item in *. simpl in *. now rewrite H1.
  - unfold str_item in H. simpl in H. rewrite andb_false_r in H. discriminate.
Qed.

(** A dictionary with unique keys whose items are well formed reads back
    from its text, the values rendered by [%s]. *)
Lemma loadrcconf_rcconf_text d :
  NoDup (dict_keys d) -> forallb wf_item d = true ->
  loadrcconf_text (rcconf_text d)
  = Ok (map (fun kv => (fst kv, Some (fmt_s (snd kv)))) d).
Proof.
  intros Hnd Hwf. unfold loadrcconf_text.
  rewrite loadrcconf_lines_text by assumption.
  rewrite fold_set_item_fresh; [reflexivity | assumption | reflexivity].
Qed.

(** ** [updatercconf] *)
Lemma fold_update_item_same k v keys : forall conf b,
  dict_get k conf = Some v ->
  fold_left (update_item k v) keys (conf, b) = (conf, b).
Proof.
  induction keys as [|item keys IH]; intros conf b Hget; [reflexivity|].
  cbn [fold_left].
  replace (update_item k v (conf, b) item) with (conf, b); [now apply IH|].
  unfold update_item. destruct (dict_get item conf) as [cur|] eqn:E; [|reflexivity].
  destruct (String.eqb item k) eqn:Ek; [|reflexivity].
  apply String.eqb_eq in Ek. subst item.
  assert (cur = v) by congruence. subst cur.
  now rewrite pyval_eqb_refl.
Qed.

Lemma fold_update_item_diff k v cur keys : forall conf b,
  dict_get k conf = Some cur -> pyval_eqb cur v = false ->
  fold_left (update_item k v) keys (conf, b)
  = if existsb (String.eqb k) keys then (dict_set k v conf, true) else (conf, b).
Proof.
  induction keys as [|item keys IH]; intros conf b Hget Hne; [reflexivity|].
  cbn [fold_left existsb]. unfold update_item at 2.
  destruct (String.eqb k item) eqn:Ek.
  - apply String.eqb_eq in Ek. subst item. rewrite Hget, String.eqb_refl, Hne.
    simpl. apply fold_update_item_same. apply dict_get_set_same.
  - rewrite String.eqb_sym, Ek. simpl.
    destruct (dict_get item conf); now apply IH.
Qed.

Lemma update_conf_spec k v conf :
  update_conf k v conf
  = match dict_get k conf with
    | None => (dict_set k v conf, true)
    | Some cur =>
        if pyval_eqb cur v then (conf, false) else (dict_set k v conf, true)
    end.
Proof.
  unfold update_conf, dict_mem.
  destruct (dict_get k conf) as [cur|] eqn:E; [|reflexivity]. simpl.
  destruct (pyval_eqb cur v) eqn:Ev.
  - apply pyval_eqb_spec in Ev. subst cur. now apply fold_update_item_same.
  - rewrite (fold_update_item_diff k v cur (dict_keys conf) conf false E Ev).
    apply dict_get_Some_keys in E.
    assert (existsb (String.eqb k) (dict_keys conf) = true) as ->; [|reflexivity].
    apply existsb_exists. exists k. split; [assumption | apply String.eqb_refl].
Qed.



Lemma updatercconf_run k v w text conf :
  rc_conf w = Some text -> loadrcconf_text text = Ok conf ->
  updatercconf k v w
  = if unchanged_by k v conf then (Ok tt, w)
    else write_rc_conf (rcconf_text (dict_set k v conf)) w.
Proof.
  intros Hrc Hload. unfold updatercconf, loadrcconf, bind, load_rc_conf, lift.
  rewrite Hrc, Hload, update_conf_spec. unfold unchanged_by.
  destruct (dict_get k conf) as [cur|]; [|reflexivity].
  destruct (pyval_eqb cur v); reflexivity.
Qed.

Lemma map_dict_set (f : pyval -> pyval) k v d :
  map (fun kv => (fst kv, f (snd kv))) (dict_set k v d)
  = dict_set k (f v) (map (fun kv => (fst kv, f (snd kv))) d).
Proof.
  induction d as [|[k' v'] d IH]; simpl; [reflexivity|].
  destruct (String.eqb k' k); simpl; [reflexivity | now rewrite IH].
Qed.

Lemma loadrcconf_after_set k v conf :
  canonical conf -> wf_key k = true -> wf_value (fmt_s v) = true ->
  loadrcconf_text (rcconf_text (dict_set k v conf))
  = Ok (dict_set k (Some (fmt_s v)) conf).
Proof.
  intros Hc Hk Hv. rewrite loadrcconf_rcconf_text.
  - rewrite (map_dict_set (fun x => Some (fmt_s x))). cbv beta.
    do 2 f_equal. now apply canonical_map_id.
  - rewrite dict_keys_set. unfold dict_mem. destruct Hc as [Hnd _].
    destruct (dict_get k conf) eqn:E; [assumption|].
    apply dict_get_None_keys in E.
    apply NoDup_app; [assumption | repeat constructor; simpl; tauto |].
    intros x Hx [<-|[]]. contradiction.
  - apply forallb_dict_set.
    + now apply canonical_wf.
    + unfold wf_item. simpl. now rewrite Hk, Hv.
    + intros k' v' E _. apply String.eqb_eq in E. subst k'.
      unfold wf_item. simpl. now rewrite Hk, Hv.
Qed.

(** [updatercconf] with a well-formed key and value: it returns, the store
    then holds the dictionary with the key set, and nothing but the store
    file and the trace has changed. *)
Lemma updatercconf_store k v w conf :
  store w conf -> wf_key k = true -> wf_value (fmt_s v) = true ->
  exists w',
    updatercconf k v w = (Ok tt, w')
    /\ store w' (dict_set k (Some (fmt_s v)) conf)
    /\ resolv_conf w' = resolv_conf w /\ ifconfig_a w' = ifconfig_a w
    /\ dhcp_interfaces w' = dhcp_interfaces w /\ postcmds w' = postcmds w
    /\ (unchanged_by k v conf = true -> w' = w).
Proof.
  intros (text & Hrc & Hload) Hk Hv.
  pose proof (loadrcconf_text_canonical text conf Hload) as Hc.
  rewrite (updatercconf_run k v w text conf Hrc Hload).
  destruct (unchanged_by k v conf) eqn:Eu.
  - exists w. repeat split; auto. exists text. split; [assumption|].
    unfold unchanged_by in Eu. destruct (dict_get k conf) as [cur|] eqn:E; [|discriminate].
    apply pyval_eqb_spec in Eu. subst cur.
    assert (Hs : Some (fmt_s v) = v).
    { destruct Hc as [_ Hall]. clear - E Hall.
      induction conf as [|[k' v'] d IH]; simpl in *; [discriminate|].
      apply andb_true_iff in Hall as [H1 H2].
      destruct (String.eqb k' k); [|auto].
      injection E as ->. unfold str_item in H1. simpl in H1.
      destruct v; [reflexivity|]. rewrite andb_false_r in H1. discriminate. }
    rewrite Hs. now rewrite dict_set_same.
  - eexists. split; [reflexivity|]. simpl. repeat split; try discriminate.
    eexists. split; [reflexivity|]. now apply loadrcconf_after_set.
Qed.

(** ** The renderer and its plan *)




Ltac run_upserts :=
  repeat (match goal with
          | |- context [updatercconf ?k ?v ?w] =>
              destruct (updatercconf k v w) as [[[]|?] ?]
          end; cbn -[updatercconf String.append]).

Lemma write_interface_plan i acc w :
  FreeBSD.write_interface i acc w
  = FreeBSD.run_plan (FreeBSD.interface_plan (ifconfig_a w) i acc) w.
Proof.
  unfold FreeBSD.write_interface, FreeBSD.interface_plan, FreeBSD.run_plan.
  destruct (truthy (name i) && is_loopback (fmt_s (name i))); [reflexivity|].
  unfold FreeBSD.rename_upsert, FreeBSD.device_name, get_ifname_by_mac, first_subnet.
  destruct (truthy (mac_address i) && truthy (name i));
    unfold bind, ret, lift, raise, str_add; cbn -[updatercconf ifname_by_mac String.append];
    destruct (ifname_by_mac "ether" (ifconfig_a w) (mac_address i)) as [cur|];
    destruct (name i) as [n|];
    cbn -[updatercconf String.append];
    try destruct (String.eqb cur n);
    cbn -[updatercconf String.append];
    destruct (subnets i) as [[|sn l]|];
    cbn -[updatercconf String.append];
    try destruct (pyval_eqb (type sn) (Some "static"));
    cbn -[updatercconf String.append];
    try destruct (address sn); try destruct (netmask sn);
    cbn -[updatercconf String.append];
    unfold bind, ret, lift, raise; cbn -[updatercconf String.append];
    run_upserts; reflexivity.
Qed.


Lemma run_plan_raise {A} ups (e : exn) w :
  exists e' w', FreeBSD.run_plan (A:=A) (ups, Raise e) w = (Raise e', w').
Proof.
  unfold FreeBSD.run_plan. cbn [fst snd]. unfold bind, lift.
  destruct (FreeBSD.upserts ups w) as [[[]|e'] w1]; eauto.
Qed.


(** A sequence of well-formed upserts on a loadable store returns and
    leaves the store holding the dictionary with the items set in turn. *)
Lemma upserts_store ups : forall w conf,
  store w conf -> forallb wf_item ups = true ->
  exists w',
    FreeBSD.upserts ups w = (Ok tt, w')
    /\ store w' (fold_left set_item ups conf).
Proof.
  induction ups as [|[k v] ups IH]; intros w conf Hs Hwf.
  - exists w. split; [reflexivity | assumption].
  - cbn [forallb] in Hwf. apply andb_true_iff in Hwf as [Hkv Hwf].
    unfold wf_item in Hkv. cbn [fst snd] in Hkv.
    apply andb_true_iff in Hkv as [Hk Hv].
    destruct (updatercconf_store k v w conf Hs Hk Hv) as (w1 & Hu & Hs1 & _).
    destruct (IH w1 _ Hs1 Hwf) as (w' & Hu' & Hs').
    exists w'. split; [|assumption].
    cbn [FreeBSD.upserts fst snd]. unfold bind. now rewrite Hu.
Qed.


Lemma str_item_inv kv :
  str_item kv = true ->
  wf_key (fst kv) = true /\ exists s, snd kv = Some s /\ wf_value s = true.
Proof.
  unfold str_item. intros H. apply andb_true_iff in H as [Hk Hv].
  split; [assumption|]. destruct (snd kv) as [s|]; [|discriminate].
  now exists s.
Qed.



Lemma fold_set_item_keeps k v ups : forall conf,
  dict_get k conf = Some v ->
  (forall kv, In kv ups -> fst kv = k -> Some (fmt_s (snd kv)) = v) ->
  dict_get k (fold_left set_item ups conf) = Some v.
Proof.
  induction ups as [|[k' v'] ups IH]; intros conf Hget Hall; [assumption|].
  cbn [fold_left]. apply IH.
  - unfold set_item. cbn [fst snd].
    destruct (string_dec k' k) as [->|Hne].
    + rewrite dict_get_set_same. f_equal. apply (Hall (k, v')); simpl; auto.
    + now rewrite dict_get_set_other.
  - intros kv Hin. apply Hall. now right.
Qed.



(** ** Loading single lines *)

Lemma splitlines_single l :
  no_linebreak l = true ->
  splitlines l = if is_empty l then [] else [l].
Proof.
  unfold splitlines. induction l as [|a l IH]; [reflexivity|].
  unfold no_linebreak. cbn [forallb_str]. intros H.
  apply andb_true_iff in H as [Ha Hl]. apply negb_true_iff in Ha.
  cbn [splitlines_from andb is_empty]. rewrite Ha, (IH Hl).
  destruct l; reflexivity.
Qed.

Lemma loadrcconf_text_single l :
  no_linebreak l = true -> l <> EmptyString ->
  loadrcconf_text l = loadrcconf_lines [] [l].
Proof.
  intros Hl Hne. unfold loadrcconf_text. rewrite splitlines_single by assumption.
  destruct l; [congruence | reflexivity].
Qed.

(** C7.  A line made of a key of word characters, an equals sign and a value
    between two quote characters, single or double, loads as that key with
    the value stripped of exactly those two characters, whatever the value
    itself begins or ends with (quotes inside are kept: the stripping is not
    repeated); when nothing is left between the quotes the line yields no
    entry. *)
Theorem loadrcconf_strips_one_quote_pair k q1 v q2 :
  wf_key k = true -> is_quote q1 = true -> is_quote q2 = true ->
  no_linebreak v = true ->
  loadrcconf_text (rc_entry k q1 v q2)
  = Ok (if is_empty v then [] else [(k, Some v)]).
Proof.
  intros Hk Hq1 Hq2 Hv.
  rewrite loadrcconf_text_single;
    [| now apply rc_entry_no_linebreak | apply rc_entry_nonempty].
  cbn [loadrcconf_lines].
  rewrite loadrcconf_line_entry;
    [| assumption | assumption | now apply no_linebreak_no_LF | assumption].
  destruct (is_empty v); reflexivity.
Qed.

Lemma loadrcconf_strips_one_quote_pair_witness :
  loadrcconf_text (rc_entry "hostname" dquote "myhost" dquote)
  = Ok [("hostname", Some "myhost")]
  /\ loadrcconf_text (rc_entry "key" dquote EmptyString dquote) = Ok []
  /\ loadrcconf_text
       (rc_entry "hostname" dquote (quoted squote "myhost") dquote)
     = Ok [("hostname", Some (quoted squote "myhost"))].
Proof.
  split; [|split].
  - apply (loadrcconf_strips_one_quote_pair "hostname" dquote "myhost" dquote);
      reflexivity.
  - apply (loadrcconf_strips_one_quote_pair "key" dquote EmptyString dquote);
      reflexivity.
  - apply (loadrcconf_strips_one_quote_pair
             "hostname" dquote (quoted squote "myhost") dquote); reflexivity.
Defined.

(** C3.  The loader has no guard before [val[0]]: on a store file that
    consists of a key, an equals sign and nothing but blanks after it, both
    [loadrcconf] and every [updatercconf] raise [IndexError] and leave the
    world as it was. *)
Theorem loadrcconf_empty_value_raises k sp w :
  wf_key k = true ->
  forallb_str (fun c => is_space c && negb (is_linebreak c)) sp = true ->
  rc_conf w = Some (k ++ String "="%char sp) ->
  loadrcconf w = (Raise IndexError, w)
  /\ forall key value, updatercconf key value w = (Raise IndexError, w).
Proof.
  intros Hk Hsp Hrc.
  assert (Hload : loadrcconf_text (k ++ String "="%char sp) = Raise IndexError).
  { assert (Hsp1 : forallb_str is_space sp = true).
    { revert Hsp. apply forallb_str_impl. intros c Hc.
      now apply andb_true_iff in Hc as [? _]. }
    assert (Hsp2 : no_linebreak sp = true).
    { revert Hsp. apply forallb_str_impl. intros c Hc.
      now apply andb_true_iff in Hc as [_ ?]. }
    rewrite loadrcconf_text_single.
    - cbn [loadrcconf_lines]. unfold loadrcconf_line, RE_MATCH.
      destruct (wf_key_inv k Hk) as [Hne Hw].
      rewrite (span_stop is_word k "="%char sp Hw) by reflexivity.
      destruct k as [|a k]; [congruence|]. cbn [is_empty].
      unfold skip_spaces. cbn [span]. 
      change (is_space "="%char) with false. cbn [snd].
      change (Ascii.eqb "="%char "="%char) with true. cbv iota.
      rewrite (span_all is_space sp Hsp1). reflexivity.
    - unfold no_linebreak. rewrite forallb_str_app.
      fold (no_linebreak k). rewrite (wf_key_no_linebreak k Hk).
      cbn [forallb_str]. fold (no_linebreak sp). now rewrite Hsp2.
    - destruct k; discriminate. }
  assert (H1 : loadrcconf w = (Raise IndexError, w)).
  { unfold loadrcconf, bind, load_rc_conf, lift. now rewrite Hrc, Hload. }
  split; [assumption|].
  intros key value. unfold updatercconf, bind. now rewrite H1.
Qed.

Lemma loadrcconf_empty_value_raises_witness :
  loadrcconf (world_of (Some "key=") listing_freebsd)
  = (Raise IndexError, world_of (Some "key=") listing_freebsd)
  /\ updatercconf "hostname" (Some "myhost")
       (world_of (Some "key=") listing_freebsd)
     = (Raise IndexError, world_of (Some "key=") listing_freebsd).
Proof.
  destruct (loadrcconf_empty_value_raises
              "key" EmptyString (world_of (Some "key=") listing_freebsd))
    as [H1 H2]; [reflexivity | reflexivity | reflexivity |].
  split; [exact H1 | apply H2].
Defined.

(** ** Keys built by the FreeBSD renderer *)

Lemma wf_key_app a b :
  forallb_str is_word a = true -> wf_key b = true -> wf_key (a ++ b) = true.
Proof.
  intros Ha Hb. destruct (wf_key_inv b Hb) as [Hne Hw].
  unfold wf_key. rewrite forallb_str_app, Ha, Hw.
  destruct a; [destruct b; [congruence | reflexivity] | reflexivity].
Qed.







Lemma ifconfig_key_wf d : wf_key d = true -> wf_key ("ifconfig_" ++ d) = true.
Proof. intros Hd. apply wf_key_app; [reflexivity | assumption]. Qed.







(** ** Interfaces that cannot be rendered *)

Lemma write_network_first_raises i rest w e w' :
  FreeBSD.write_interface i ([], []) w = (Raise e, w') ->
  FreeBSD.write_network (i :: rest) w = (Raise e, w').
Proof.
  intros H. unfold FreeBSD.write_network. cbn [for_each]. unfold bind.
  now rewrite H.
Qed.

(** C2, as the code has it.  An interface without a usable declared name
    whose MAC lookup finds nothing is not dropped: the turn of the FreeBSD
    loop for it raises, the render ends with that exception in the world
    that turn reached, whatever interfaces follow, and for a first subnet
    that is not static the exception is [TypeError], raised before anything
    was written or logged. *)
Theorem unresolved_interface_aborts_render i w :
  truthy (name i) = false ->
  ifname_by_mac "ether" (ifconfig_a w) (mac_address i) = None ->
  exists e w',
    FreeBSD.write_interface i ([], []) w = (Raise e, w')
    /\ (forall rest, FreeBSD.write_network (i :: rest) w = (Raise e, w'))
    /\ (forall sn l, subnets i = Some (sn :: l) ->
          pyval_eqb (type sn) (Some "static") = false ->
          e = TypeError /\ w' = w).
Proof.
  intros Hn Hlook.
  assert (Hplan : exists ups e,
             FreeBSD.interface_plan (ifconfig_a w) i ([], []) = (ups, Raise e)
             /\ (forall sn l, subnets i = Some (sn :: l) ->
                   pyval_eqb (type sn) (Some "static") = false ->
                   ups = [] /\ e = TypeError)).
  { unfold FreeBSD.interface_plan, FreeBSD.rename_upsert, FreeBSD.device_name.
    rewrite Hn, Hlook, andb_false_r. cbn [andb].
    destruct (subnets i) as [[|sn l]|].
    - exists [], IndexError. split; [reflexivity | discriminate].
    - destruct (pyval_eqb (type sn) (Some "static")) eqn:Et.
      + destruct (address sn), (netmask sn); eexists; eexists;
          (split; [reflexivity|]); intros sn' l' E; injection E as <- <-; congruence.
      + exists [], TypeError. split; [reflexivity | auto].
    - exists [], IndexError. split; [reflexivity | discriminate]. }
  destruct Hplan as (ups & e & Hplan & Hdhcp).
  destruct (run_plan_raise (A:=list string * list string) ups e w)
    as (e' & w' & Hrun).
  assert (Hwi : FreeBSD.write_interface i ([], []) w = (Raise e', w')).
  { now rewrite write_interface_plan, Hplan. }
  exists e', w'. split; [assumption|]. split.
  - intros rest. now apply write_network_first_raises.
  - intros sn l Hsub Ht. destruct (Hdhcp sn l Hsub Ht) as [-> ->].
    unfold FreeBSD.run_plan, bind, lift in Hrun. cbn in Hrun.
    injection Hrun as <- <-. auto.
Qed.

Lemma unresolved_interface_aborts_render_witness :
  exists e w',
    FreeBSD.write_interface ghost_dhcp ([], [])
      (world_of (Some EmptyString) listing_freebsd) = (Raise e, w')
    /\ (forall rest,
          FreeBSD.write_network (ghost_dhcp :: rest)
            (world_of (Some EmptyString) listing_freebsd) = (Raise e, w'))
    /\ (forall sn l, subnets ghost_dhcp = Some (sn :: l) ->
          pyval_eqb (type sn) (Some "static") = false ->
          e = TypeError /\ w' = world_of (Some EmptyString) listing_freebsd).
Proof.
  apply (unresolved_interface_aborts_render
           ghost_dhcp (world_of (Some EmptyString) listing_freebsd)).
  - reflexivity.
  - vm_compute. reflexivity.
Defined.

(** C2 as stated fails: the unresolved interface is followed by one that
    resolves; the render raises [TypeError] in the world it started from, so
    nothing was logged and the second interface was never written. *)
Lemma unresolved_interface_dropped_counterexample :
  truthy (name ghost_dhcp) = false
  /\ ifname_by_mac "ether" listing_freebsd (mac_address ghost_dhcp) = None
  /\ FreeBSD.write_network [ghost_dhcp; eth0_dhcp]
       (world_of (Some EmptyString) listing_freebsd)
     = (Raise TypeError, world_of (Some EmptyString) listing_freebsd)
  /\ fst (FreeBSD.write_network [eth0_dhcp]
            (world_of (Some EmptyString) listing_freebsd)) = Ok tt.
Proof. repeat split; vm_compute; reflexivity. Qed.

(** ** Interfaces without subnets *)

Lemma loadrcconf_lines_raise lines : forall conf e,
  loadrcconf_lines conf lines = Raise e -> e = IndexError.
Proof.
  induction lines as [|l ls IH]; intros conf e; cbn [loadrcconf_lines];
    [discriminate|].
  destruct (loadrcconf_line conf l) as [conf'|e'] eqn:El.
  - apply IH.
  - intros H. injection H as <-. unfold loadrcconf_line in El.
    destruct (RE_MATCH l) as [[g1 g2]|]; [|discriminate].
    unfold kill_quotes in El. destruct (rstrip g2) as [|c0 rest]; [congruence|].
    destruct (last_char (if is_quote c0 then rest else String c0 rest));
      [|congruence].
    destruct (is_empty _); discriminate.
Qed.

Lemma updatercconf_raise k v w text :
  rc_conf w = Some text ->
  updatercconf k v w = (Raise IndexError, w)
  \/ exists w', updatercconf k v w = (Ok tt, w').
Proof.
  intros Hrc. unfold updatercconf, loadrcconf, bind, load_rc_conf, lift.
  rewrite Hrc. destruct (loadrcconf_text text) as [conf|e] eqn:El.
  - right. destruct (update_conf k v conf) as [conf' []]; eexists; reflexivity.
  - left. unfold loadrcconf_text in El.
    now rewrite (loadrcconf_lines_raise _ _ _ El).
Qed.

(** C10, as the code has it.  An interface whose subnets are missing or
    empty makes the NetBSD render raise [IndexError] at once, in the world it
    started from, whatever interfaces follow.  The FreeBSD render does the
    same unless the declared name is a loopback name, which is skipped before
    the subnets are looked at; there the store file, which a rename upsert
    reads first, has to exist, and the world is the one that turn of the
    loop reached. *)
Theorem empty_subnets_raise_IndexError i w :
  subnets i = None \/ subnets i = Some [] ->
  (forall rest, NetBSD.write_network (i :: rest) w = (Raise IndexError, w))
  /\ (truthy (name i) && is_loopback (fmt_s (name i)) = false ->
      rc_conf w <> None ->
      exists w',
        FreeBSD.write_interface i ([], []) w = (Raise IndexError, w')
        /\ forall rest,
             FreeBSD.write_network (i :: rest) w = (Raise IndexError, w')).
Proof.
  intros Hsub. split.
  - intros rest. unfold NetBSD.write_network. cbn [for_each].
    unfold NetBSD.write_interface, first_subnet, get_ifname_by_mac, bind, ret, raise.
    destruct (truthy (mac_address i)); destruct Hsub as [-> | ->]; reflexivity.
  - intros Hlo Hrc.
    assert (Hwi : exists w',
               FreeBSD.write_interface i ([], []) w = (Raise IndexError, w')).
    { rewrite write_interface_plan. unfold FreeBSD.interface_plan. rewrite Hlo.
      destruct Hsub as [Hs | Hs]; rewrite Hs;
        unfold FreeBSD.run_plan, bind, lift; cbn [fst snd];
        unfold FreeBSD.rename_upsert;
        (destruct (truthy (mac_address i) && truthy (name i)
                   && negb (pyval_eqb
                              (ifname_by_mac "ether" (ifconfig_a w) (mac_address i))
                              (name i)));
         [| eexists; reflexivity]);
        cbn [FreeBSD.upserts fst snd]; unfold bind;
        destruct (rc_conf w) as [text|] eqn:Et; try congruence;
        (match goal with |- context [updatercconf ?k ?v w] =>
           destruct (updatercconf_raise k v w text Et) as [-> | [w1 ->]]
         end; eexists; reflexivity). }
    destruct Hwi as [w' Hwi]. exists w'. split; [assumption|].
    intros rest. now apply write_network_first_raises.
Qed.

Lemma empty_subnets_raise_IndexError_witness :
  (forall rest,
     NetBSD.write_network (iface (Some "vioif0") (Some mac1) [] :: rest)
       (world_of (Some EmptyString) listing_netbsd)
     = (Raise IndexError, world_of (Some EmptyString) listing_netbsd))
  /\ exists w',
       FreeBSD.write_interface (iface (Some "eth0") (Some mac1) []) ([], [])
         (world_of (Some EmptyString) listing_freebsd)
       = (Raise IndexError, w')
       /\ forall rest,
            FreeBSD.write_network (iface (Some "eth0") (Some mac1) [] :: rest)
              (world_of (Some EmptyString) listing_freebsd)
            = (Raise IndexError, w').
Proof.
  split.
  - apply (empty_subnets_raise_IndexError
             (iface (Some "vioif0") (Some mac1) [])
             (world_of (Some EmptyString) listing_netbsd)).
    right. reflexivity.
  - apply (empty_subnets_raise_IndexError
             (iface (Some "eth0") (Some mac1) [])
             (world_of (Some EmptyString) listing_freebsd)).
    + right. reflexivity.
    + reflexivity.
    + discriminate.
Defined.

(** C10 as stated fails on FreeBSD for a loopback name: [lo0] without
    subnets raises nothing and the interface after it is rendered. *)
Lemma empty_subnets_loopback_counterexample :
  subnets lo0_no_subnet = Some []
  /\ exists w',
       FreeBSD.write_network [lo0_no_subnet; eth0_dhcp]
         (world_of (Some EmptyString) listing_freebsd) = (Ok tt, w')
       /\ readrcconf "ifconfig_eth0" w' = (Ok (Some "DHCP"), w').
Proof.
  split; [reflexivity|].
  eexists. split; vm_compute; reflexivity.
Qed.

(** ** Merging into resolv.conf *)

Lemma directive_eqb_spec a b : directive_eqb a b = true <-> a = b.
Proof.
  destruct a, b; simpl; try (split; congruence);
    rewrite String.eqb_eq; split; congruence.
Qed.

Lemma directive_eqb_refl a : directive_eqb a a = true.
Proof. now apply directive_eqb_spec. Qed.

Lemma existsb_count d rc :
  existsb (directive_eqb d) rc = true <-> 1 <= count_dir d rc.
Proof.
  induction rc as [|x rc IH]; simpl; [split; [discriminate | lia]|].
  destruct (directive_eqb d x); simpl; [split; [lia | reflexivity]|].
  exact IH.
Qed.

Lemma count_dir_In d rc : In d rc <-> 1 <= count_dir d rc.
Proof.
  rewrite <- existsb_count, existsb_exists. split.
  - intros H. exists d. split; [assumption | apply directive_eqb_refl].
  - intros (x & Hx & E). apply directive_eqb_spec in E. now subst.
Qed.

Lemma count_dir_snoc d rc y :
  count_dir d (rc ++ [y])%list
  = count_dir d rc + (if directive_eqb d y then 1 else 0).
Proof. induction rc as [|x rc IH]; simpl; [lia | rewrite IH; lia]. Qed.

Lemma count_dir_add_all (C : string -> directive) d xs : forall rc,
  count_dir d (add_all C xs rc)
  = if existsb (fun x => directive_eqb d (C x)) xs
    then Nat.max 1 (count_dir d rc) else count_dir d rc.
Proof.
  unfold add_all.
  induction xs as [|x xs IH]; intros rc; [reflexivity|].
  cbn [fold_left existsb]. rewrite IH.
  assert (Hc : count_dir d (if existsb (directive_eqb (C x)) rc then rc
                            else (rc ++ [C x])%list)
               = if directive_eqb d (C x) then Nat.max 1 (count_dir d rc)
                 else count_dir d rc).
  { destruct (existsb (directive_eqb (C x)) rc) eqn:Ex.
    - destruct (directive_eqb d (C x)) eqn:Ed; [|reflexivity].
      apply directive_eqb_spec in Ed. subst d.
      apply existsb_count in Ex. lia.
    - rewrite count_dir_snoc.
      destruct (directive_eqb d (C x)) eqn:Ed; [|lia].
      apply directive_eqb_spec in Ed. subst d.
      destruct (count_dir (C x) rc) eqn:En; [reflexivity|].
      assert (existsb (directive_eqb (C x)) rc = true)
        by (apply existsb_count; lia). congruence. }
  rewrite Hc.
  destruct (directive_eqb d (C x)), (existsb _ xs); cbn [orb]; lia.
Qed.

Lemma push_events_nil w : push_events [] w = w.
Proof. now destruct w. Qed.

Lemma push_events_push evs2 evs1 w :
  push_events evs2 (push_events evs1 w) = push_events (evs2 ++ evs1)%list w.
Proof. unfold push_events. cbn. now rewrite app_assoc. Qed.

Lemma bind_run {A B} (m : M A) (f : A -> M B) w :
  bind m f w
  = match m w with
    | (Ok a, w') => f a w'
    | (Raise e, w') => (Raise e, w')
    end.
Proof. reflexivity. Qed.

Lemma add_step (C : string -> directive) msg x rc w :
  try_except
    (lift (if existsb (directive_eqb (C x)) rc then Raise ValueError
           else Ok (rc ++ [C x])%list))
    ValueError (emit (LogExc msg (Some x)) ;;; ret rc) w
  = if existsb (directive_eqb (C x)) rc
    then (Ok rc, push_events [LogExc msg (Some x)] w)
    else (Ok (rc ++ [C x])%list, w).
Proof.
  unfold try_except, lift. destruct (existsb (directive_eqb (C x)) rc);
    reflexivity.
Qed.

(** The loop of adds never raises: it returns the configuration with the
    new entries appended, and has logged every entry that was present. *)
Lemma add_each_run (C : string -> directive) msg xs : forall rc w,
  exists evs,
    add_each (fun x rc => if existsb (directive_eqb (C x)) rc
                          then Raise ValueError
                          else Ok (rc ++ [C x])%list) msg xs rc w
    = (Ok (add_all C xs rc), push_events evs w)
    /\ no_rc_write evs = true
    /\ (forall x, In x xs -> In (C x) rc -> In (LogExc msg (Some x)) evs).
Proof.
  induction xs as [|x xs IH]; intros rc w.
  - exists []. rewrite push_events_nil. repeat split. intros x [].
  - cbn [add_each]. rewrite bind_run, add_step.
    unfold add_all. cbn [fold_left]. fold (add_all C xs).
    destruct (existsb (directive_eqb (C x)) rc) eqn:Ex.
    + destruct (IH rc (push_events [LogExc msg (Some x)] w))
        as (evs & Hrun & Hno & Hlog).
      exists (evs ++ [LogExc msg (Some x)])%list.
      rewrite Hrun, push_events_push. split; [reflexivity|]. split.
      * unfold no_rc_write in *. rewrite forallb_app, Hno. reflexivity.
      * intros y [<-|Hy] Hin; apply in_or_app; [right; now left|].
        left. now apply Hlog.
    + destruct (IH (rc ++ [C x])%list w) as (evs & Hrun & Hno & Hlog).
      exists evs. rewrite Hrun.
      split; [reflexivity|]. split; [assumption|].
      intros y [<-|Hy] Hin.
      * exfalso. apply count_dir_In, existsb_count in Hin. congruence.
      * apply Hlog; [assumption | apply in_or_app; now left].
Qed.

(** The whole merge: it returns, and writes the configuration it started
    from with the name servers and then the search domains added. *)
Lemma merge_resolv_conf_run ns sd w :
  exists evs,
    merge_resolv_conf ns sd w
    = (Ok tt,
       with_resolv (add_all SearchDomain sd
                      (add_all Nameserver ns (resolv_start w)))
                   (push_events evs w))
    /\ no_rc_write evs = true
    /\ (forall n, In n ns -> In (Nameserver n) (resolv_start w) ->
          In (LogExc "Failed to add nameserver %s" (Some n)) evs)
    /\ (forall d, In d sd -> In (SearchDomain d) (resolv_start w) ->
          In (LogExc "Failed to add search domain %s" (Some d)) evs).
Proof.
  unfold merge_resolv_conf, resolv_start.
  set (start := match resolv_conf w with Some ds => ds | None => [] end).
  assert (Hload : exists ev0,
             try_except load_resolv_conf IOError
               (emit (LogExc "Failed to parse %s, use new empty file"
                             (Some "/etc/resolv.conf")) ;;; ret []) w
             = (Ok start, push_events ev0 w) /\ no_rc_write ev0 = true).
  { unfold try_except, load_resolv_conf, start.
    destruct (resolv_conf w).
    - exists []. now rewrite push_events_nil.
    - cbn [exn_eqb]. unfold bind, emit, ret.
      eexists [_]. split; reflexivity. }
  destruct Hload as (ev0 & Hload & Hno0).
  rewrite bind_run, Hload.
  destruct (add_each_run Nameserver "Failed to add nameserver %s" ns start
              (push_events ev0 w)) as (ev1 & Hrun1 & Hno1 & Hlog1).
  rewrite bind_run. unfold add_nameserver.
  rewrite Hrun1, push_events_push.
  destruct (add_each_run SearchDomain "Failed to add search domain %s" sd
              (add_all Nameserver ns start) (push_events (ev1 ++ ev0) w))
    as (ev2 & Hrun2 & Hno2 & Hlog2).
  rewrite bind_run. unfold add_search_domain.
  rewrite Hrun2, push_events_push.
  exists (ev2 ++ ev1 ++ ev0)%list. split; [reflexivity|]. split.
  { unfold no_rc_write in *. now rewrite !forallb_app, Hno2, Hno1, Hno0. }
  split.
  - intros n Hn Hin. apply in_or_app. right. apply in_or_app. left. auto.
  - intros d Hd Hin. apply in_or_app. left. apply Hlog2; [assumption|].
    apply count_dir_In. rewrite count_dir_add_all.
    apply count_dir_In in Hin. fold start in Hin.
    destruct (existsb _ ns); lia.
Qed.

Lemma write_network_after_loop settings w acc w1 :
  for_each FreeBSD.write_interface settings ([], []) w = (Ok acc, w1) ->
  exists w', FreeBSD.write_network settings w = (Ok tt, w')
             /\ rc_conf w' = rc_conf w1 /\ ifconfig_a w' = ifconfig_a w1.
Proof.
  intros Hloop. unfold FreeBSD.write_network.
  rewrite bind_run, Hloop, bind_run. unfold emit at 1.
  rewrite bind_run. unfold emit at 1.
  match goal with |- context [merge_resolv_conf ?a ?b ?x] =>
    destruct (merge_resolv_conf_run a b x) as (evs & -> & _) end.
  eexists. split; [reflexivity|]. split; reflexivity.
Qed.

(** C8.  Against the resolver configuration modelled from the spec, the
    merge of any lists of name servers and search domains returns: an entry
    that is already present raises the duplicate error, which is caught and
    logged, and the entries after it are still added.  In the file written,
    every name server and search domain of the lists occurs as often as
    before, or once if it was absent (so adding one twice leaves one
    directive); the store file is not touched.  The FreeBSD render as a
    whole returns whenever its interface loop does. *)
Theorem duplicate_dns_entries_do_not_abort ns sd w :
  exists w' final,
    merge_resolv_conf ns sd w = (Ok tt, w')
    /\ resolv_conf w' = Some final
    /\ rc_conf w' = rc_conf w
    /\ (forall n, In n ns ->
          count_dir (Nameserver n) final
          = Nat.max 1 (count_dir (Nameserver n) (resolv_start w)))
    /\ (forall d, In d sd ->
          count_dir (SearchDomain d) final
          = Nat.max 1 (count_dir (SearchDomain d) (resolv_start w)))
    /\ (forall n, In n ns -> In (Nameserver n) (resolv_start w) ->
          In (LogExc "Failed to add nameserver %s" (Some n)) (trace w'))
    /\ (forall d, In d sd -> In (SearchDomain d) (resolv_start w) ->
          In (LogExc "Failed to add search domain %s" (Some d)) (trace w'))
    /\ (forall settings w0 acc w1,
          for_each FreeBSD.write_interface settings ([], []) w0 = (Ok acc, w1) ->
          exists w2, FreeBSD.write_network settings w0 = (Ok tt, w2)).
Proof.
  destruct (merge_resolv_conf_run ns sd w) as (evs & Hrun & _ & Hl1 & Hl2).
  eexists. eexists. split; [exact Hrun|].
  split; [reflexivity|]. split; [reflexivity|].
  assert (Hex : forall (C : string -> directive) x xs,
             In x xs -> existsb (fun y => directive_eqb (C x) (C y)) xs = true).
  { intros C x xs Hin. apply existsb_exists. exists x.
    split; [assumption | apply directive_eqb_refl]. }
  assert (Hno1 : forall n, existsb (fun y => directive_eqb (Nameserver n)
                                                (SearchDomain y)) sd = false).
  { clear. intros n. induction sd as [|y sd' IH]; [reflexivity | exact IH]. }
  split; [|split; [|split; [|split]]].
  - intros n Hn. rewrite count_dir_add_all, Hno1.
    now rewrite count_dir_add_all, (Hex Nameserver n ns Hn).
  - intros d Hd. rewrite count_dir_add_all, (Hex SearchDomain d sd Hd).
    rewrite count_dir_add_all.
    assert (Hno2 : existsb (fun y => directive_eqb (SearchDomain d)
                                       (Nameserver y)) ns = false).
    { clear. induction ns as [|y ns' IH]; [reflexivity | exact IH]. }
    now rewrite Hno2.
  - intros n Hn Hin. cbn [with_resolv push_events trace].
    right. apply in_or_app. left. now apply Hl1.
  - intros d Hd Hin. cbn [with_resolv push_events trace].
    right. apply in_or_app. left. now apply Hl2.
  - intros settings w0 acc w1 Hloop.
    destruct (write_network_after_loop settings w0 acc w1 Hloop) as (w2 & H & _).
    now exists w2.
Qed.

(** The example of the spec: the same name server twice, starting without a
    resolv.conf. *)
Example nameserver_twice :
  merge_resolv_conf ["8.8.8.8"; "8.8.8.8"] []
    {| rc_conf := None; resolv_conf := None; ifconfig_a := EmptyString;
       dhcp_interfaces := []; postcmds := true; trace := [] |}
  = (Ok tt,
     {| rc_conf := None; resolv_conf := Some [Nameserver "8.8.8.8"];
        ifconfig_a := EmptyString; dhcp_interfaces := []; postcmds := true;
        trace := [WriteResolvConf [Nameserver "8.8.8.8"];
                  LogExc "Failed to add nameserver %s" (Some "8.8.8.8");
                  LogExc "Failed to parse %s, use new empty file"
                         (Some "/etc/resolv.conf")] |}).
Proof. reflexivity. Qed.

(** ** Loopback interfaces *)

Lemma for_each_app {A S} (body : A -> S -> M S) l1 l2 : forall st w,
  for_each body (l1 ++ l2)%list st w
  = bind (for_each body l1 st) (fun st' => for_each body l2 st') w.
Proof.
  induction l1 as [|x l1 IH]; intros st w; cbn [for_each app].
  - reflexivity.
  - rewrite !bind_run. destruct (body x st w) as [[st'|e] w1]; [|reflexivity].
    rewrite IH. reflexivity.
Qed.

(** The FreeBSD renderer skips a loopback interface: the render of a model
    is the render of the model without it. *)
Lemma freebsd_skips_loopback l1 lo l2 w :
  truthy (name lo) && is_loopback (fmt_s (name lo)) = true ->
  FreeBSD.write_network (l1 ++ lo :: l2)%list w
  = FreeBSD.write_network (l1 ++ l2)%list w.
Proof.
  intros Hlo. unfold FreeBSD.write_network.
  rewrite !(bind_run (for_each _ _ _)), !for_each_app, !bind_run.
  destruct (for_each FreeBSD.write_interface l1 ([], []) w) as [[st|e] w1];
    [|reflexivity].
  cbn [for_each]. rewrite bind_run.
  unfold FreeBSD.write_interface at 1. rewrite Hlo. reflexivity.
Qed.

Lemma is_loopback_truthy n : is_loopback n = true -> truthy (Some n) = true.
Proof. destruct n; [discriminate | reflexivity]. Qed.

(** C9.  The NetBSD renderer has no loopback test: an interface with a
    loopback name, no MAC and a first subnet that is not static is appended
    to [dhcp_interfaces] like any other, where the FreeBSD renderer renders a
    model with such an interface as the model without it. *)
Theorem netbsd_renders_loopback lo n sn l acc w l1 l2 :
  name lo = Some n -> is_loopback n = true ->
  truthy (mac_address lo) = false ->
  subnets lo = Some (sn :: l) ->
  pyval_eqb (type sn) (Some "static") = false ->
  NetBSD.write_interface lo acc w = (Ok acc, NetBSD.with_dhcp w (Some n))
  /\ FreeBSD.write_network (l1 ++ lo :: l2)%list w
     = FreeBSD.write_network (l1 ++ l2)%list w.
Proof.
  intros Hn Hlo Hmac Hsub Ht. split.
  - unfold NetBSD.write_interface, first_subnet.
    rewrite Hmac, Hsub, Hn. unfold bind, ret. cbv beta iota.
    rewrite Ht. reflexivity.
  - apply freebsd_skips_loopback.
    rewrite Hn. cbn [fmt_s]. now rewrite Hlo, (is_loopback_truthy n Hlo).
Qed.

Lemma netbsd_renders_loopback_witness :
  NetBSD.write_interface lo0_dhcp ([], [])
    (world_of (Some EmptyString) listing_netbsd)
  = (Ok ([], []),
     NetBSD.with_dhcp (world_of (Some EmptyString) listing_netbsd)
       (Some "lo0"))
  /\ FreeBSD.write_network ([] ++ lo0_dhcp :: [eth0_dhcp])%list
       (world_of (Some EmptyString) listing_netbsd)
     = FreeBSD.write_network ([] ++ [eth0_dhcp])%list
         (world_of (Some EmptyString) listing_netbsd).
Proof.
  apply (netbsd_renders_loopback
           lo0_dhcp "lo0" dhcp_subnet [] ([], [])
           (world_of (Some EmptyString) listing_netbsd) [] [eth0_dhcp]);
    reflexivity.
Defined.

(** The whole NetBSD render of [lo0] with DHCP: the loopback interface ends
    up in the [dhcpcd_flags] it sets. *)
Example netbsd_lo0_in_dhcpcd_flags :
  exists w',
    NetBSD.write_network [lo0_dhcp]
      (world_of (Some EmptyString) listing_netbsd) = (Ok tt, w')
    /\ dhcp_interfaces w' = [Some "lo0"]
    /\ In (SetRcConfigValue "dhcpcd_flags" (Some "lo0")) (trace w').
Proof.
  eexists. split; [vm_compute; reflexivity|].
  split; [reflexivity|]. cbn. auto.
Qed.

(** ** Static and DHCP subnets *)

(** Whatever the gateway, [None] included, a static first subnet makes the
    FreeBSD renderer upsert [defaultrouter] with it. *)
Lemma freebsd_static_upserts_defaultrouter i acc out sn l a m d :
  truthy (name i) && is_loopback (fmt_s (name i)) = false ->
  subnets i = Some (sn :: l) ->
  pyval_eqb (type sn) (Some "static") = true ->
  address sn = Some a -> netmask sn = Some m ->
  FreeBSD.device_name out i = Some d ->
  In ("defaultrouter", gateway sn) (fst (FreeBSD.interface_plan out i acc)).
Proof.
  intros Hlo Hsub Ht Ha Hm Hd. unfold FreeBSD.interface_plan.
  rewrite Hlo, Hsub, Ht, Ha, Hm, Hd. cbn [fst].
  apply in_or_app. right. now left.
Qed.

Lemma fold_left_set_item_last ups kv conf :
  dict_get (fst kv) (fold_left set_item (ups ++ [kv])%list conf)
  = Some (Some (fmt_s (snd kv))).
Proof.
  rewrite fold_left_app. cbn [fold_left]. unfold set_item at 1.
  apply dict_get_set_same.
Qed.

(** C5.  For a static first subnet without gateway, one turn of the FreeBSD
    loop still upserts the default route, with [None]: it returns and leaves
    [defaultrouter] in the store with the text None as value, next to the
    addressing entry.  The same turn of the NetBSD loop, which tests the
    gateway first, sets the addressing key and nothing else. *)
Theorem freebsd_static_without_gateway i acc w conf sn l a m d :
  store w conf ->
  truthy (name i) && is_loopback (fmt_s (name i)) = false ->
  subnets i = Some (sn :: l) ->
  pyval_eqb (type sn) (Some "static") = true ->
  address sn = Some a -> netmask sn = Some m -> gateway sn = None ->
  FreeBSD.device_name (ifconfig_a w) i = Some d -> wf_key d = true ->
  wf_value ((a ++ " netmask ") ++ m) = true ->
  forallb wf_item (FreeBSD.rename_upsert (ifconfig_a w) i) = true ->
  (exists acc' w' conf',
     FreeBSD.write_interface i acc w = (Ok acc', w')
     /\ store w' conf'
     /\ dict_get "defaultrouter" conf' = Some (Some "None")
     /\ dict_get ("ifconfig_" ++ d) conf'
        = Some (Some ((a ++ " netmask ") ++ m)))
  /\ (forall d',
        NetBSD.device_name (ifconfig_a w) i = Some d' ->
        NetBSD.write_interface i acc w
        = (Ok (extend_opt (fst acc) (dns_nameservers sn),
               extend_opt (snd acc) (dns_search sn)),
           push_events
             [SetRcConfigValue ("ifconfig_" ++ d')
                (Some ((a ++ " netmask ") ++ m))] w)).
Proof.
  intros Hs Hlo Hsub Ht Ha Hm Hg Hd Hk Hv Hren. split.
  - rewrite write_interface_plan. unfold FreeBSD.interface_plan.
    rewrite Hlo, Hsub, Ht, Ha, Hm, Hd, Hg. cbv beta iota.
    set (ren := FreeBSD.rename_upsert (ifconfig_a w) i) in *.
    set (cfg := (a ++ " netmask ") ++ m) in *.
    match goal with |- context [FreeBSD.run_plan (?u, _)] =>
      set (ups := u) end.
    destruct (upserts_store ups w conf Hs) as (w' & Hu & Hs').
    { unfold ups. rewrite forallb_app, Hren. cbn [forallb]. unfold wf_item.
      cbn [fst snd fmt_s]. rewrite (ifconfig_key_wf d Hk), Hv. reflexivity. }
    eexists. exists w', (fold_left set_item ups conf).
    unfold FreeBSD.run_plan. cbn [fst snd]. rewrite bind_run, Hu.
    split; [reflexivity|]. split; [assumption|]. split.
    + change ups with (app ren (app [("defaultrouter", None)]
                                    [("ifconfig_" ++ d, Some cfg)])).
      rewrite app_assoc, (fold_left_app set_item _ [_]). cbn [fold_left].
      unfold set_item at 1. cbn [fst snd fmt_s].
      rewrite dict_get_set_other by discriminate.
      apply (fold_left_set_item_last ren ("defaultrouter", None)).
    + change ups with (app ren (app [("defaultrouter", None)]
                                    [("ifconfig_" ++ d, Some cfg)])).
      rewrite app_assoc.
      apply (fold_left_set_item_last _ ("ifconfig_" ++ d, Some cfg)).
  - intros d' Hd'. unfold NetBSD.write_interface, first_subnet, get_ifname_by_mac.
    unfold NetBSD.device_name in Hd'. rewrite Hsub.
    destruct (truthy (mac_address i)); unfold bind, ret; cbv beta iota;
      rewrite Ht, Ha, Hm, Hg, Hd'; reflexivity.
Qed.

Lemma freebsd_static_without_gateway_witness :
  exists acc' w' conf',
    FreeBSD.write_interface vtnet0_static_no_gw ([], [])
      (world_of (Some (rcconf_text [("defaultrouter", Some "10.0.0.1")]))
                listing_freebsd)
    = (Ok acc', w')
    /\ store w' conf'
    /\ dict_get "defaultrouter" conf' = Some (Some "None")
    /\ dict_get ("ifconfig_" ++ "vtnet0") conf'
       = Some (Some (("192.168.1.5" ++ " netmask ") ++ "255.255.255.0")).
Proof.
  refine (proj1 (freebsd_static_without_gateway
                   vtnet0_static_no_gw ([], [])
                   (world_of
                      (Some (rcconf_text [("defaultrouter", Some "10.0.0.1")]))
                      listing_freebsd)
                   [("defaultrouter", Some "10.0.0.1")]
                   (static_subnet "192.168.1.5" "255.255.255.0" None) []
                   "192.168.1.5" "255.255.255.0" "vtnet0"
                   _ _ _ _ _ _ _ _ _ _ _)).
  - eexists. split; [reflexivity | vm_compute; reflexivity].
  - reflexivity.
  - reflexivity.
  - reflexivity.
  - reflexivity.
  - reflexivity.
  - reflexivity.
  - vm_compute. reflexivity.
  - reflexivity.
  - reflexivity.
  - vm_compute. reflexivity.
Defined.

(** The two renders in full, over a store that has a default route: FreeBSD
    replaces it by the text None, NetBSD sets the addressing key only. *)
Example static_without_gateway_renders :
  (exists w',
     FreeBSD.write_network [vtnet0_static_no_gw]
       (world_of (Some (rcconf_text [("defaultrouter", Some "10.0.0.1")]))
                 listing_freebsd)
     = (Ok tt, w')
     /\ rc_conf w'
        = Some (rcconf_text
                  [("defaultrouter", Some "None");
                   ("ifconfig_vtnet0",
                    Some "192.168.1.5 netmask 255.255.255.0")])
     /\ readrcconf "defaultrouter" w' = (Ok (Some "None"), w'))
  /\ (exists w',
        NetBSD.write_network [vioif0_static_no_gw]
          (world_of (Some (rcconf_text [("defaultrouter", Some "10.0.0.1")]))
                    listing_netbsd)
        = (Ok tt, w')
        /\ filter (fun ev => match ev with
                             | SetRcConfigValue _ _ => true
                             | _ => false
                             end) (trace w')
           = [SetRcConfigValue "ifconfig_vioif0"
                (Some "192.168.1.5 netmask 255.255.255.0")]).
Proof.
  split.
  - eexists. split; [vm_compute; reflexivity|].
    split; vm_compute; reflexivity.
  - eexists. split; [vm_compute; reflexivity|]. vm_compute. reflexivity.
Qed.





(** ** Rendering twice *)







(** * Further properties of the store *)

Lemma canonical_items conf :
  canonical conf ->
  NoDup (dict_keys conf)
  /\ forall k v, In (k, v) conf ->
       wf_key k = true /\ exists s, v = Some s /\ wf_value s = true.
Proof.
  intros [Hnd Hall]. split; [assumption|].
  intros k v Hin. rewrite forallb_forall in Hall.
  apply (str_item_inv (k, v)). now apply Hall.
Qed.

(** X1.  What [loadrcconf] returns has every key once, each made of word
    characters, and every value a string that is not empty and has no line
    boundary: a value is never [None] and never the empty text. *)
Theorem loadrcconf_gives_unique_string_items text conf :
  loadrcconf_text text = Ok conf ->
  NoDup (dict_keys conf)
  /\ forall k v, In (k, v) conf ->
       wf_key k = true /\ exists s, v = Some s /\ wf_value s = true.
Proof.
  intros H. apply canonical_items. exact (loadrcconf_text_canonical text conf H).
Qed.

Lemma loadrcconf_gives_unique_string_items_witness :
  NoDup (dict_keys [("hostname", Some "old")])
  /\ forall k v, In (k, v) [("hostname", Some "old")] ->
       wf_key k = true /\ exists s, v = Some s /\ wf_value s = true.
Proof.
  apply (loadrcconf_gives_unique_string_items commented_store).
  vm_compute. reflexivity.
Defined.

(** X2.  The text [updatercconf] writes for a dictionary that was loaded
    loads back as that very dictionary: a rewrite of the file loses no entry
    and changes no value. *)
Theorem loaded_store_survives_rewrite text conf :
  loadrcconf_text text = Ok conf ->
  loadrcconf_text (rcconf_text conf) = Ok conf.
Proof.
  intros H. pose proof (loadrcconf_text_canonical text conf H) as Hc.
  rewrite loadrcconf_rcconf_text.
  - f_equal. now apply canonical_map_id.
  - now destruct Hc.
  - now apply canonical_wf.
Qed.

Lemma loaded_store_survives_rewrite_witness :
  loadrcconf_text (rcconf_text [("hostname", Some "old")])
  = Ok [("hostname", Some "old")].
Proof.
  apply (loaded_store_survives_rewrite commented_store).
  vm_compute. reflexivity.
Defined.


Lemma readrcconf_store k w conf :
  store w conf -> readrcconf k w = (Ok (lookup k conf), w).
Proof.
  intros (text & Hrc & Hload).
  unfold readrcconf, loadrcconf, bind, load_rc_conf, lift, ret, lookup.
  now rewrite Hrc, Hload.
Qed.

(** X4.  On a store that loads, an [updatercconf] of a key of word
    characters with a value that is not empty and has no line boundary
    returns, and [readrcconf] of that key then gives the value. *)
Theorem readrcconf_after_updatercconf k s w conf :
  store w conf -> wf_key k = true -> wf_value s = true ->
  exists w',
    updatercconf k (Some s) w = (Ok tt, w')
    /\ readrcconf k w' = (Ok (Some s), w').
Proof.
  intros Hs Hk Hv.
  destruct (updatercconf_store k (Some s) w conf Hs Hk Hv)
    as (w' & Hu & Hs' & _).
  exists w'. split; [assumption|].
  rewrite (readrcconf_store k w' _ Hs'). unfold lookup.
  cbn [fmt_s]. now rewrite dict_get_set_same.
Qed.

Lemma readrcconf_after_updatercconf_witness :
  exists w',
    updatercconf "hostname" (Some "new")
      (world_of (Some commented_store) listing_freebsd) = (Ok tt, w')
    /\ readrcconf "hostname" w' = (Ok (Some "new"), w').
Proof.
  apply (readrcconf_after_updatercconf
           "hostname" "new" (world_of (Some commented_store) listing_freebsd)
           [("hostname", Some "old")]).
  - eexists. split; [reflexivity | vm_compute; reflexivity].
  - reflexivity.
  - reflexivity.
Defined.

(** X5.  Such an [updatercconf] leaves every other key as it was, keeps the
    keys in their order, and puts a new key last. *)
Theorem updatercconf_keeps_other_keys k s w conf :
  store w conf -> wf_key k = true -> wf_value s = true ->
  exists w' conf',
    updatercconf k (Some s) w = (Ok tt, w')
    /\ store w' conf'
    /\ (forall k', k' <> k -> readrcconf k' w' = (Ok (lookup k' conf), w'))
    /\ dict_keys conf'
       = if dict_mem k conf then dict_keys conf
         else (dict_keys conf ++ [k])%list.
Proof.
  intros Hs Hk Hv.
  destruct (updatercconf_store k (Some s) w conf Hs Hk Hv)
    as (w' & Hu & Hs' & _).
  exists w', (dict_set k (Some (fmt_s (Some s))) conf).
  split; [assumption|]. split; [assumption|]. split.
  - intros k' Hne. rewrite (readrcconf_store k' w' _ Hs'). unfold lookup.
    rewrite dict_get_set_other by congruence. reflexivity.
  - apply dict_keys_set.
Qed.

Lemma updatercconf_keeps_other_keys_witness :
  exists w' conf',
    updatercconf "ifconfig_vtnet0" (Some "DHCP")
      (world_of (Some commented_store) listing_freebsd) = (Ok tt, w')
    /\ store w' conf'
    /\ (forall k', k' <> "ifconfig_vtnet0" ->
          readrcconf k' w' = (Ok (lookup k' [("hostname", Some "old")]), w'))
    /\ dict_keys conf'
       = if dict_mem "ifconfig_vtnet0" [("hostname", Some "old")]
         then dict_keys [("hostname", Some "old")]
         else (dict_keys [("hostname", Some "old")] ++ ["ifconfig_vtnet0"])%list.
Proof.
  apply (updatercconf_keeps_other_keys
           "ifconfig_vtnet0" "DHCP"
           (world_of (Some commented_store) listing_freebsd)
           [("hostname", Some "old")]).
  - eexists. split; [reflexivity | vm_compute; reflexivity].
  - reflexivity.
  - reflexivity.
Defined.

Lemma splitlines_rcconf_text d :
  forallb wf_item d = true ->
  splitlines (rcconf_text d) = map entry_line d.
Proof.
  induction d as [|[k v] d IH]; intros Hd; [reflexivity|].
  cbn [forallb] in Hd. apply andb_true_iff in Hd as [Hkv Hd].
  unfold wf_item in Hkv. cbn [fst snd] in Hkv.
  apply andb_true_iff in Hkv as [Hk Hv].
  apply wf_value_inv in Hv as [_ Hv].
  rewrite rcconf_text_cons. unfold splitlines in *.
  rewrite splitlines_line; [| now apply rc_entry_no_linebreak | now left].
  cbn [map]. now rewrite IH.
Qed.

(** X6.  When such an [updatercconf] changes something, the file it writes
    has one line for each key of the new dictionary, in order, each of the
    form key, equals sign, value in double quotes, and no other line: the
    lines of the old file that were not entries (comments, blank lines), and
    the quoting the entries had, are gone. *)
Theorem updatercconf_rewrites_entries_only k s w conf :
  store w conf -> wf_key k = true -> wf_value s = true ->
  unchanged_by k (Some s) conf = false ->
  exists w' text',
    updatercconf k (Some s) w = (Ok tt, w')
    /\ rc_conf w' = Some text'
    /\ splitlines text' = map entry_line (dict_set k (Some s) conf).
Proof.
  intros (text & Hrc & Hload) Hk Hv Hun.
  pose proof (loadrcconf_text_canonical text conf Hload) as Hc.
  rewrite (updatercconf_run k (Some s) w text conf Hrc Hload), Hun.
  eexists. eexists. split; [reflexivity|]. split; [reflexivity|].
  apply splitlines_rcconf_text. apply forallb_dict_set.
  - now apply canonical_wf.
  - unfold wf_item. cbn [fst snd fmt_s]. now rewrite Hk, Hv.
  - intros k' v' E _. apply String.eqb_eq in E. subst k'.
    unfold wf_item. cbn [fst snd fmt_s]. now rewrite Hk, Hv.
Qed.

Lemma updatercconf_rewrites_entries_only_witness :
  splitlines commented_store
  = ["# set by the installer"; EmptyString;
     rc_entry "hostname" squote "old" squote]
  /\ exists w' text',
       updatercconf "ifconfig_vtnet0" (Some "DHCP")
         (world_of (Some commented_store) listing_freebsd) = (Ok tt, w')
       /\ rc_conf w' = Some text'
       /\ splitlines text'
          = map entry_line
              (dict_set "ifconfig_vtnet0" (Some "DHCP")
                        [("hostname", Some "old")]).
Proof.
  split; [reflexivity|].
  apply (updatercconf_rewrites_entries_only
           "ifconfig_vtnet0" "DHCP"
           (world_of (Some commented_store) listing_freebsd)
           [("hostname", Some "old")]).
  - eexists. split; [reflexivity | vm_compute; reflexivity].
  - reflexivity.
  - reflexivity.
  - reflexivity.
Defined.

(** X7.  In a store file of entry lines where a key is assigned more than
    once, the value loaded for it is the one of its last line. *)
Theorem loadrcconf_last_assignment_wins d1 k v d2 :
  forallb wf_item (d1 ++ (k, v) :: d2)%list = true ->
  ~ In k (dict_keys d2) ->
  exists conf,
    loadrcconf_text (rcconf_text (d1 ++ (k, v) :: d2)%list) = Ok conf
    /\ dict_get k conf = Some (Some (fmt_s v)).
Proof.
  intros Hwf Hnot. unfold loadrcconf_text.
  rewrite loadrcconf_lines_text by assumption.
  eexists. split; [reflexivity|].
  rewrite fold_left_app. cbn [fold_left].
  apply fold_set_item_keeps.
  - unfold set_item. cbn [fst snd]. apply dict_get_set_same.
  - intros kv Hin Hk. exfalso. apply Hnot. unfold dict_keys.
    rewrite <- Hk. now apply in_map.
Qed.

Lemma loadrcconf_last_assignment_wins_witness :
  exists conf,
    loadrcconf_text
      (rcconf_text ([("hostname", Some "a"); ("sshd_enable", Some "YES")]
                    ++ ("hostname", Some "b") :: [("ntpd_enable", Some "NO")])%list)
    = Ok conf
    /\ dict_get "hostname" conf = Some (Some (fmt_s (Some "b"))).
Proof.
  apply (loadrcconf_last_assignment_wins
           [("hostname", Some "a"); ("sshd_enable", Some "YES")]
           "hostname" (Some "b") [("ntpd_enable", Some "NO")]).
  - reflexivity.
  - cbn. intros [H|[]]. discriminate.
Defined.

Lemma last_char_None s : last_char s = None -> s = EmptyString.
Proof.
  induction s as [|c s IH]; [reflexivity|]. cbn [last_char].
  destruct s; [discriminate|]. intros H. specialize (IH H). discriminate.
Qed.

(** X8.  On a line the loader raises exactly when the line matches and the
    value, stripped of the spaces at its end, is empty or is one quote
    character; the exception is then [IndexError]. *)
Theorem loadrcconf_line_raises_iff conf line e :
  loadrcconf_line conf line = Raise e
  <-> e = IndexError
      /\ exists g1 g2,
           RE_MATCH line = Some (g1, g2)
           /\ (rstrip g2 = EmptyString
               \/ exists q, is_quote q = true
                            /\ rstrip g2 = String q EmptyString).
Proof.
  unfold loadrcconf_line.
  destruct (RE_MATCH line) as [[g1 g2]|].
  - unfold kill_quotes. destruct (rstrip g2) as [|c0 rest] eqn:Ev.
    + split.
      * intros H. injection H as <-. split; [reflexivity|].
        exists g1, g2. auto.
      * intros [-> _]. reflexivity.
    + destruct (is_quote c0) eqn:Eq.
      * destruct (last_char rest) as [cl|] eqn:El.
        -- split.
           ++ destruct (is_empty _); discriminate.
           ++ intros (_ & h1 & h2 & Hm & [H | (q & _ & H)]).
              ** injection Hm as <- <-. congruence.
              ** injection Hm as <- <-. rewrite Ev in H.
                 injection H as _ ->. discriminate.
        -- apply last_char_None in El. subst rest. split.
           ++ intros H. injection H as <-. split; [reflexivity|].
              exists g1, g2. split; [reflexivity|]. right.
              exists c0. auto.
           ++ intros [-> _]. reflexivity.
      * destruct (last_char (String c0 rest)) as [cl|] eqn:El.
        -- split.
           ++ destruct (is_empty _); discriminate.
           ++ intros (_ & h1 & h2 & Hm & [H | (q & Hq & H)]).
              ** injection Hm as <- <-. congruence.
              ** injection Hm as <- <-. rewrite Ev in H.
                 injection H as <- _. congruence.
        -- apply last_char_None in El. discriminate.
  - split; [discriminate|].
    intros (_ & g1 & g2 & H & _). discriminate.
Qed.

(** * Further properties of the lookup by MAC *)

Lemma take_machex_shape n : forall s m,
  take_machex n s = Some m ->
  String.length m = n /\ forallb_str is_machex m = true.
Proof.
  induction n as [|n IH]; intros s m; cbn [take_machex].
  - intros H. injection H as <-. auto.
  - destruct s as [|c s]; [discriminate|].
    destruct (is_machex c) eqn:Ec; [|discriminate].
    destruct (take_machex n s) as [m'|] eqn:Et; [|discriminate].
    intros H. injection H as <-. destruct (IH s m' Et) as [Hl Hf].
    cbn. now rewrite Hl, Ec, Hf.
Qed.

Lemma re_search_hwaddr_shape kw s : forall m,
  re_search_hwaddr kw s = Some m ->
  String.length m = 17 /\ forallb_str is_machex m = true.
Proof.
  induction s as [|c s IH]; intros m; cbn [re_search_hwaddr];
    unfold hwaddr_here.
  - destruct (strip_prefix kw EmptyString) as [[|c r]|]; try discriminate.
    destruct (is_space c); [|discriminate].
    destruct (take_machex 17 r) as [m'|] eqn:Et; [|discriminate].
    intros H. injection H as <-. exact (take_machex_shape 17 r m' Et).
  - destruct (strip_prefix kw (String c s)) as [[|c' r]|]; try apply IH.
    destruct (is_space c'); [|apply IH].
    destruct (take_machex 17 r) as [m'|] eqn:Et; [|apply IH].
    intros H. injection H as <-. exact (take_machex_shape 17 r m' Et).
Qed.

Lemma ifname_loop_found kw mac blocks : forall r,
  ifname_loop kw mac blocks = Some r ->
  (exists m, mac = Some m /\ String.length m = 17
             /\ forallb_str is_machex m = true)
  /\ exists body, In (r, body) blocks.
Proof.
  induction blocks as [|[ifname body] rest IH]; intros r;
    cbn [ifname_loop]; [discriminate|].
  assert (Hrest : ifname_loop kw mac rest = Some r ->
                  (exists m, mac = Some m /\ String.length m = 17
                             /\ forallb_str is_machex m = true)
                  /\ exists body0, In (r, body0) ((ifname, body) :: rest)).
  { intros H. destruct (IH r H) as [H1 [b Hb]]. split; [assumption|].
    exists b. now right. }
  destruct (re_search_hwaddr kw body) as [m|] eqn:Es; [|exact Hrest].
  destruct (pyval_eqb (Some m) mac) eqn:Em; [|exact Hrest].
  intros H. injection H as <-. apply pyval_eqb_spec in Em. split.
  - exists m. split; [auto|]. exact (re_search_hwaddr_shape kw body m Es).
  - exists body. now left.
Qed.

(** X9.  [_get_ifname_by_mac] finds an interface only for a MAC that is a
    text of seventeen characters, each a digit, a letter from a to f in
    lower case, or a colon: for [None], for the empty text and for a MAC
    written in upper case it returns [None], whatever the listing. *)
Theorem ifname_by_mac_needs_canonical_mac kw out mac r :
  ifname_by_mac kw out mac = Some r ->
  exists m, mac = Some m /\ String.length m = 17
            /\ forallb_str is_machex m = true.
Proof.
  unfold ifname_by_mac. intros H.
  exact (proj1 (ifname_loop_found kw mac _ r H)).
Qed.

Lemma ifname_by_mac_needs_canonical_mac_witness :
  exists m, Some mac1 = Some m /\ String.length m = 17
            /\ forallb_str is_machex m = true.
Proof.
  apply (ifname_by_mac_needs_canonical_mac
           "ether" listing_freebsd (Some mac1) "vtnet0").
  vm_compute. reflexivity.
Defined.

Lemma ifname_by_mac_falsy kw out mac :
  truthy mac = false -> ifname_by_mac kw out mac = None.
Proof.
  intros Hm. destruct (ifname_by_mac kw out mac) as [r|] eqn:E; [|reflexivity].
  destruct (ifname_loop_found kw mac _ r E) as [(m & -> & Hl & _) _].
  destruct m; [discriminate Hl | discriminate Hm].
Qed.

Lemma re_split_from_groups s : forall skip,
  Forall (fun p => starts_with_LF (fst p) = true)
         (snd (re_split_from false skip s)).
Proof.
  induction s as [|c s IH]; intros skip; cbn [re_split_from];
    [constructor|].
  destruct skip as [|k]; [|apply IH].
  unfold separator_here. cbn [andb].
  destruct (Ascii.eqb c LF).
  - destruct (name_colon s) as [n|]; cbn [option_map].
    + specialize (IH (pred (S (S (String.length n))))).
      destruct (re_split_from false (pred (S (S (String.length n)))) s)
        as [txt ps]. cbn [snd] in *. constructor; [reflexivity | assumption].
    + specialize (IH 0). destruct (re_split_from false 0 s) as [txt ps].
      assumption.
  - specialize (IH 0). destruct (re_split_from false 0 s) as [txt ps].
    assumption.
Qed.

Lemma re_split_groups out :
  match snd (re_split out) with
  | [] => True
  | _ :: ps => Forall (fun p => starts_with_LF (fst p) = true) ps
  end.
Proof.
  unfold re_split. destruct out as [|c s]; [exact I|].
  cbn [re_split_from]. 
  destruct (separator_here true (String c s)) as [[grp len]|].
  - pose proof (re_split_from_groups s (pred len)) as H.
    destruct (re_split_from false (pred len) s) as [txt ps]. exact H.
  - pose proof (re_split_from_groups s 0) as H.
    destruct (re_split_from false 0 s) as [txt ps]. cbn [snd] in *.
    destruct ps as [|p ps]; [exact I|]. now inversion H.
Qed.

(** X10.  Only the first interface of the listing is returned under its own
    name: the name [_get_ifname_by_mac] returns is either that of the first
    block the split found, or it begins with the line feed that the
    separator pattern took into its group. *)
Theorem ifname_by_mac_later_blocks_keep_line_feed kw out mac r :
  ifname_by_mac kw out mac = Some r ->
  (exists body rest, snd (re_split out) = (r, body) :: rest)
  \/ starts_with_LF r = true.
Proof.
  unfold ifname_by_mac. intros H.
  destruct (ifname_loop_found kw mac _ r H) as [_ [body Hin]].
  pose proof (re_split_groups out) as Hg.
  destruct (snd (re_split out)) as [|[n0 b0] ps]; [destruct Hin|].
  destruct Hin as [E | Hin].
  - injection E as -> ->. left. eauto.
  - right. rewrite Forall_forall in Hg. exact (Hg (r, body) Hin).
Qed.

Lemma ifname_by_mac_later_blocks_keep_line_feed_witness :
  ifname_by_mac "ether"
    (listing_freebsd ++ "em1: flags=8843<UP> metric 0 mtu 1500" ++ nl
       ++ tab ++ "ether 00:11:22:33:44:55" ++ nl)
    (Some "00:11:22:33:44:55")
  = Some (nl ++ "em1")
  /\ ((exists body rest,
         snd (re_split
                (listing_freebsd ++ "em1: flags=8843<UP> metric 0 mtu 1500"
                   ++ nl ++ tab ++ "ether 00:11:22:33:44:55" ++ nl))
         = (nl ++ "em1", body) :: rest)
      \/ starts_with_LF (nl ++ "em1") = true).
Proof.
  split; [vm_compute; reflexivity|].
  apply (ifname_by_mac_later_blocks_keep_line_feed
           "ether" _ (Some "00:11:22:33:44:55")).
  vm_compute. reflexivity.
Defined.

(** * Further properties of the renderers *)

(** X11.  On FreeBSD an interface that has no MAC is not rendered under its
    declared name: the lookup, which then returns [None], replaces the name,
    and the turn of the loop raises, for a first subnet that is not static
    [TypeError] before anything is written; the render ends there, whatever
    interfaces follow.  Only a loopback name, which is skipped first, does
    not raise. *)
Theorem freebsd_interface_without_mac_raises i w :
  truthy (mac_address i) = false ->
  truthy (name i) && is_loopback (fmt_s (name i)) = false ->
  exists e w',
    FreeBSD.write_interface i ([], []) w = (Raise e, w')
    /\ (forall rest, FreeBSD.write_network (i :: rest) w = (Raise e, w'))
    /\ (forall sn l, subnets i = Some (sn :: l) ->
          pyval_eqb (type sn) (Some "static") = false ->
          e = TypeError /\ w' = w).
Proof.
  intros Hmac Hlo.
  assert (Hplan : exists ups e,
             FreeBSD.interface_plan (ifconfig_a w) i ([], []) = (ups, Raise e)
             /\ (forall sn l, subnets i = Some (sn :: l) ->
                   pyval_eqb (type sn) (Some "static") = false ->
                   ups = [] /\ e = TypeError)).
  { unfold FreeBSD.interface_plan, FreeBSD.rename_upsert, FreeBSD.device_name.
    rewrite Hlo, Hmac, (ifname_by_mac_falsy "ether" (ifconfig_a w) _ Hmac).
    cbn [andb].
    destruct (subnets i) as [[|sn l]|].
    - exists [], IndexError. split; [reflexivity | discriminate].
    - destruct (pyval_eqb (type sn) (Some "static")) eqn:Et.
      + destruct (address sn), (netmask sn); eexists; eexists;
          (split; [reflexivity|]); intros sn' l' E; injection E as <- <-;
          congruence.
      + exists [], TypeError. split; [reflexivity | auto].
    - exists [], IndexError. split; [reflexivity | discriminate]. }
  destruct Hplan as (ups & e & Hplan & Hdhcp).
  destruct (run_plan_raise (A:=list string * list string) ups e w)
    as (e' & w' & Hrun).
  assert (Hwi : FreeBSD.write_interface i ([], []) w = (Raise e', w')).
  { now rewrite write_interface_plan, Hplan. }
  exists e', w'. split; [assumption|]. split.
  - intros rest. now apply write_network_first_raises.
  - intros sn l Hsub Ht. destruct (Hdhcp sn l Hsub Ht) as [-> ->].
    unfold FreeBSD.run_plan, bind, lift in Hrun. cbn in Hrun.
    injection Hrun as <- <-. auto.
Qed.

Lemma freebsd_interface_without_mac_raises_witness :
  exists e w',
    FreeBSD.write_interface (iface (Some "vtnet0") None [dhcp_subnet]) ([], [])
      (world_of (Some EmptyString) listing_freebsd) = (Raise e, w')
    /\ (forall rest,
          FreeBSD.write_network
            (iface (Some "vtnet0") None [dhcp_subnet] :: rest)
            (world_of (Some EmptyString) listing_freebsd) = (Raise e, w'))
    /\ (forall sn l,
          subnets (iface (Some "vtnet0") None [dhcp_subnet]) = Some (sn :: l) ->
          pyval_eqb (type sn) (Some "static") = false ->
          e = TypeError /\ w' = world_of (Some EmptyString) listing_freebsd).
Proof.
  apply (freebsd_interface_without_mac_raises
           (iface (Some "vtnet0") None [dhcp_subnet])
           (world_of (Some EmptyString) listing_freebsd)); reflexivity.
Defined.





Lemma netbsd_dhcp_turn i acc w :
  dhcp_first i = true ->
  NetBSD.write_interface i acc w
  = (Ok acc, NetBSD.with_dhcp w (NetBSD.device_name (ifconfig_a w) i)).
Proof.
  unfold dhcp_first. intros Hd.
  destruct (subnets i) as [[|sn l]|] eqn:Hsub; try discriminate.
  apply negb_true_iff in Hd.
  unfold NetBSD.write_interface, NetBSD.device_name, first_subnet,
    get_ifname_by_mac.
  rewrite Hsub. destruct (truthy (mac_address i));
    unfold bind, ret; cbv beta iota; rewrite Hd; reflexivity.
Qed.

Lemma netbsd_dhcp_loop settings : forall acc w,
  forallb dhcp_first settings = true ->
  exists w',
    for_each NetBSD.write_interface settings acc w = (Ok acc, w')
    /\ dhcp_interfaces w'
       = (dhcp_interfaces w
          ++ map (NetBSD.device_name (ifconfig_a w)) settings)%list
    /\ trace w' = trace w /\ rc_conf w' = rc_conf w
    /\ resolv_conf w' = resolv_conf w /\ ifconfig_a w' = ifconfig_a w
    /\ postcmds w' = postcmds w.
Proof.
  induction settings as [|i rest IH]; intros acc w Hall.
  - exists w. cbn. rewrite app_nil_r. repeat split.
  - cbn [forallb] in Hall. apply andb_true_iff in Hall as [Hi Hrest].
    cbn [for_each]. rewrite bind_run, (netbsd_dhcp_turn i acc w Hi).
    destruct (IH acc (NetBSD.with_dhcp w (NetBSD.device_name (ifconfig_a w) i))
                Hrest) as (w' & Hrun & Hd & Ht & Hrc & Hres & Hif & Hp).
    exists w'. split; [assumption|].
    cbn [NetBSD.with_dhcp dhcp_interfaces trace rc_conf resolv_conf ifconfig_a
         postcmds] in *.
    rewrite Hd, <- app_assoc. cbn [map app]. repeat split; assumption.
Qed.

(** X13.  The NetBSD renderer never empties [self.dhcp_interfaces]: a render
    of a model whose first subnets are all DHCP appends the name of every
    interface, in order, to what the list already held (so a second render
    with the same renderer object leaves every name in it twice), and its
    loop writes and logs nothing. *)
Theorem netbsd_dhcp_interfaces_accumulate settings acc w :
  forallb dhcp_first settings = true ->
  exists w',
    for_each NetBSD.write_interface settings acc w = (Ok acc, w')
    /\ dhcp_interfaces w'
       = (dhcp_interfaces w
          ++ map (NetBSD.device_name (ifconfig_a w)) settings)%list
    /\ trace w' = trace w /\ rc_conf w' = rc_conf w
    /\ resolv_conf w' = resolv_conf w.
Proof.
  intros Hall.
  destruct (netbsd_dhcp_loop settings acc w Hall)
    as (w' & H1 & H2 & H3 & H4 & H5 & _).
  exists w'. auto.
Qed.

Lemma netbsd_dhcp_interfaces_accumulate_witness :
  exists w',
    for_each NetBSD.write_interface [vioif0_dhcp] ([], [])
      (snd (NetBSD.write_network [vioif0_dhcp]
              (world_of (Some EmptyString) listing_netbsd)))
    = (Ok ([], []), w')
    /\ dhcp_interfaces w'
       = (dhcp_interfaces
            (snd (NetBSD.write_network [vioif0_dhcp]
                    (world_of (Some EmptyString) listing_netbsd)))
          ++ map (NetBSD.device_name
                    (ifconfig_a
                       (snd (NetBSD.write_network [vioif0_dhcp]
                               (world_of (Some EmptyString) listing_netbsd)))))
                 [vioif0_dhcp])%list
    /\ trace w'
       = trace (snd (NetBSD.write_network [vioif0_dhcp]
                       (world_of (Some EmptyString) listing_netbsd)))
    /\ rc_conf w'
       = rc_conf (snd (NetBSD.write_network [vioif0_dhcp]
                         (world_of (Some EmptyString) listing_netbsd)))
    /\ resolv_conf w'
       = resolv_conf (snd (NetBSD.write_network [vioif0_dhcp]
                             (world_of (Some EmptyString) listing_netbsd))).
Proof.
  apply (netbsd_dhcp_interfaces_accumulate [vioif0_dhcp] ([], [])).
  reflexivity.
Defined.

(** The second render of one DHCP interface with the same renderer object
    sets [dhcpcd_flags] to its name twice. *)
Example netbsd_second_render_doubles_flags :
  In (SetRcConfigValue "dhcpcd_flags" (Some "vioif0 vioif0"))
     (trace (snd (NetBSD.write_network [vioif0_dhcp]
                    (snd (NetBSD.write_network [vioif0_dhcp]
                            (world_of (Some EmptyString) listing_netbsd)))))).
Proof. vm_compute. auto 10. Qed.

Lemma join_None sep xs : In None xs -> NetBSD.join sep xs = Raise TypeError.
Proof.
  induction xs as [|[x|] xs IH]; [intros [] | | reflexivity].
  intros [H|H]; [discriminate|]. cbn [NetBSD.join].
  destruct xs as [|y ys]; [destruct H|]. now rewrite (IH H).
Qed.

(** X14.  On NetBSD a DHCP interface whose name is not resolved is not
    dropped: [None] goes into [dhcp_interfaces], and after the loop the
    render raises [TypeError] at the join, when [dhcpcd] has been set to YES
    already; resolv.conf is not written and no service is restarted. *)
Theorem netbsd_unresolved_dhcp_raises_after_loop settings w i :
  forallb dhcp_first settings = true ->
  In i settings -> NetBSD.device_name (ifconfig_a w) i = None ->
  exists w1,
    for_each NetBSD.write_interface settings ([], []) w = (Ok ([], []), w1)
    /\ NetBSD.write_network settings w
       = (Raise TypeError,
          push_events [SetRcConfigValue "dhcpcd" (Some "YES")] w1)
    /\ trace w1 = trace w /\ resolv_conf w1 = resolv_conf w.
Proof.
  intros Hall Hin Hnone.
  destruct (netbsd_dhcp_loop settings ([], []) w Hall)
    as (w1 & Hrun & Hd & Ht & _ & Hres & _).
  exists w1. split; [assumption|]. split; [|auto].
  unfold NetBSD.write_network. rewrite bind_run, Hrun, bind_run.
  assert (HinN : In None (dhcp_interfaces w1)).
  { rewrite Hd. apply in_or_app. right. rewrite <- Hnone. now apply in_map. }
  unfold NetBSD.write_dhcpcd.
  destruct (dhcp_interfaces w1) as [|p ps] eqn:Edh; [destruct HinN|].
  unfold bind, lift, NetBSD.set_rc_config_value, emit. cbv beta iota.
  cbn [dhcp_interfaces]. rewrite Edh, (join_None " " (p :: ps) HinN).
  unfold push_events. cbn [app]. rewrite Edh. reflexivity.
Qed.

Lemma netbsd_unresolved_dhcp_raises_after_loop_witness :
  exists w1,
    for_each NetBSD.write_interface [ghost_dhcp; vioif0_dhcp] ([], [])
      (world_of (Some EmptyString) listing_netbsd) = (Ok ([], []), w1)
    /\ NetBSD.write_network [ghost_dhcp; vioif0_dhcp]
         (world_of (Some EmptyString) listing_netbsd)
       = (Raise TypeError,
          push_events [SetRcConfigValue "dhcpcd" (Some "YES")] w1)
    /\ trace w1 = trace (world_of (Some EmptyString) listing_netbsd)
    /\ resolv_conf w1
       = resolv_conf (world_of (Some EmptyString) listing_netbsd).
Proof.
  apply (netbsd_unresolved_dhcp_raises_after_loop
           [ghost_dhcp; vioif0_dhcp]
           (world_of (Some EmptyString) listing_netbsd) ghost_dhcp).
  - reflexivity.
  - now left.
  - vm_compute. reflexivity.
Defined.

(** * The host name and the interface names of the FreeBSD distro *)

(** X15.  On a store that loads, [_write_hostname] of a name that is not
    empty and has no line boundary returns, and [_read_hostname] then gives
    that name, whatever its default. *)
Theorem read_hostname_after_write_hostname h default w conf :
  store w conf -> wf_value h = true ->
  exists w',
    FreeBSDDistro.write_hostname (Some h) w = (Ok tt, w')
    /\ FreeBSDDistro.read_hostname default w' = (Ok (Some h), w')
    /\ FreeBSDDistro.read_system_hostname w' = (Ok ("rc.conf", Some h), w').
Proof.
  intros Hs Hv. unfold FreeBSDDistro.write_hostname.
  destruct (updatercconf_store "hostname" (Some h) w conf Hs eq_refl Hv)
    as (w' & Hu & Hs' & _).
  exists w'. split; [assumption|].
  assert (Hr : forall d, FreeBSDDistro.read_hostname d w' = (Ok (Some h), w')).
  { intros d. unfold FreeBSDDistro.read_hostname, try_except.
    rewrite bind_run, (readrcconf_store "hostname" w' _ Hs'). unfold lookup.
    cbn [fmt_s]. rewrite dict_get_set_same.
    destruct (wf_value_inv h Hv) as [Hne _].
    destruct h; [congruence | reflexivity]. }
  split; [apply Hr|].
  unfold FreeBSDDistro.read_system_hostname. rewrite bind_run, Hr. reflexivity.
Qed.

Lemma read_hostname_after_write_hostname_witness :
  exists w',
    FreeBSDDistro.write_hostname (Some "myhost.example.org")
      (world_of (Some commented_store) listing_freebsd) = (Ok tt, w')
    /\ FreeBSDDistro.read_hostname (Some "localhost") w'
       = (Ok (Some "myhost.example.org"), w')
    /\ FreeBSDDistro.read_system_hostname w'
       = (Ok ("rc.conf", Some "myhost.example.org"), w').
Proof.
  apply (read_hostname_after_write_hostname
           "myhost.example.org" (Some "localhost")
           (world_of (Some commented_store) listing_freebsd)
           [("hostname", Some "old")]).
  - eexists. split; [reflexivity | vm_compute; reflexivity].
  - reflexivity.
Defined.

(** X16.  [_read_hostname] never changes the world.  It gives its default
    when the store file does not exist (the [IOError] is passed over) and
    when the file has no [hostname] entry, and the stored name otherwise;
    but the [IndexError] the loader raises on a malformed line is not
    caught and comes out of it. *)
Theorem read_hostname_cases default w :
  FreeBSDDistro.read_hostname default w
  = match rc_conf w with
    | None => (Ok default, w)
    | Some text =>
        match loadrcconf_text text with
        | Raise e => (Raise e, w)
        | Ok conf =>
            match dict_get "hostname" conf with
            | Some (Some h) => (Ok (Some h), w)
            | _ => (Ok default, w)
            end
        end
    end.
Proof.
  unfold FreeBSDDistro.read_hostname, try_except, readrcconf, loadrcconf.
  rewrite !bind_run. unfold load_rc_conf, lift, ret.
  destruct (rc_conf w) as [text|]; [|reflexivity].
  destruct (loadrcconf_text text) as [conf|e] eqn:El.
  - destruct (dict_get "hostname" conf) as [[h|]|] eqn:Eg; try reflexivity.
    pose proof (loadrcconf_text_canonical text conf El) as [_ Hall].
    assert (Hh : wf_value h = true).
    { clear - Eg Hall. induction conf as [|[k v] d IH]; [discriminate|].
      cbn [forallb] in Hall. apply andb_true_iff in Hall as [H1 H2].
      cbn [dict_get] in Eg. destruct (String.eqb k "hostname").
      - injection Eg as ->. unfold str_item in H1. cbn [fst snd] in H1.
        now apply andb_true_iff in H1 as [_ ?].
      - now apply IH. }
    destruct (wf_value_inv h Hh) as [Hne _].
    destruct h; [congruence | reflexivity].
  - pose proof (loadrcconf_lines_raise _ _ _ El) as ->. reflexivity.
Qed.

(** The three cases on sample stores. *)
Example read_hostname_samples :
  FreeBSDDistro.read_hostname (Some "localhost")
    (world_of None listing_freebsd)
  = (Ok (Some "localhost"), world_of None listing_freebsd)
  /\ FreeBSDDistro.read_hostname (Some "localhost")
       (world_of (Some commented_store) listing_freebsd)
     = (Ok (Some "old"), world_of (Some commented_store) listing_freebsd)
  /\ FreeBSDDistro.read_hostname (Some "localhost")
       (world_of (Some "hostname=") listing_freebsd)
     = (Raise IndexError, world_of (Some "hostname=") listing_freebsd).
Proof. repeat split; reflexivity. Qed.

Lemma last_char_fails (p : ascii -> bool) s c :
  last_char s = Some c -> p c = false -> forallb_str p s = false.
Proof.
  intros Hl Hc. induction s as [|a s IH]; [discriminate|].
  change (forallb_str p (String a s)) with (p a && forallb_str p s).
  destruct s as [|b s].
  - cbn in Hl. injection Hl as ->. now rewrite Hc.
  - rewrite (IH Hl). apply andb_false_r.
Qed.

Lemma span_suffix (p : ascii -> bool) s :
  forallb_str p s = false ->
  exists c r, snd (span p s) = String c r /\ p c = false
              /\ last_char (String c r) = last_char s.
Proof.
  induction s as [|a s IH]; [discriminate|]. cbn [forallb_str span].
  destruct (p a) eqn:Ea; cbn [andb].
  - intros H. destruct (IH H) as (c & r & Hs & Hc & Hl).
    destruct (span p s) as [x y]. cbn [snd] in *. subst y.
    exists c, r. split; [reflexivity|]. split; [assumption|].
    rewrite Hl. cbn [last_char]. destruct s; [discriminate H | reflexivity].
  - intros _. exists a, s. auto.
Qed.

Lemma last_char_app a b :
  b <> EmptyString -> last_char (a ++ b) = last_char b.
Proof.
  intros Hb. induction a as [|c a IH]; [reflexivity|].
  cbn [append last_char]. rewrite IH.
  destruct (a ++ b) eqn:E; [|reflexivity].
  destruct a; [cbn in E; congruence | discriminate].
Qed.

Lemma digits_inv ds :
  digits ds = true -> ds <> EmptyString /\ forallb_str is_digit ds = true.
Proof.
  unfold digits. intros H. apply andb_true_iff in H as [H1 H2].
  split; [now destruct ds | assumption].
Qed.

Lemma digits_last ds :
  digits ds = true -> exists c, last_char ds = Some c /\ is_digit c = true.
Proof.
  intros H. destruct (digits_inv ds H) as [Hne Hall]. clear H.
  induction ds as [|a ds IH]; [congruence|].
  cbn [forallb_str] in Hall. apply andb_true_iff in Hall as [Ha Hd].
  destruct ds as [|b ds]; [exists a; auto|].
  destruct (IH ltac:(discriminate) Hd) as (c & Hc & Hdc).
  exists c. split; [exact Hc | assumption].
Qed.

Lemma at_end_last rest c :
  last_char rest = Some c -> Ascii.eqb c LF = false ->
  FreeBSDDistro.at_end rest = false.
Proof.
  intros Hl Hc. unfold FreeBSDDistro.at_end.
  destruct rest as [|a [|b r]]; [discriminate | | ].
  - cbn in Hl. injection Hl as ->. cbn [is_empty orb String.eqb].
    now rewrite Hc.
  - cbn [is_empty orb String.eqb]. now destruct (Ascii.eqb a LF).
Qed.

Lemma digit_not_LF c : is_digit c = true -> Ascii.eqb c LF = false.
Proof. destruct c as [[] [] [] [] [] [] [] []]; vm_compute; congruence. Qed.

(** On a text whose digits at the end are exactly [ds], the search gives
    [ds] and the substitution puts the replacement in their place. *)
Lemma trailing_digits_app base ds repl :
  no_digit_at_end base = true -> digits ds = true ->
  FreeBSDDistro.search_trailing_digits (base ++ ds) = Some ds
  /\ FreeBSDDistro.sub_trailing_digits repl (base ++ ds) = base ++ repl.
Proof.
  intros Hb Hd. destruct (digits_inv ds Hd) as [Hne Hall].
  induction base as [|c base IH].
  - cbn [append]. destruct ds as [|d ds']; [congruence|].
    cbn [FreeBSDDistro.search_trailing_digits
         FreeBSDDistro.sub_trailing_digits].
    rewrite (span_all is_digit (String d ds') Hall). cbn.
    split; [reflexivity | now rewrite append_nil_r].
  - assert (Hb' : no_digit_at_end base = true).
    { unfold no_digit_at_end in *. cbn [last_char] in Hb.
      destruct base; [reflexivity | exact Hb]. }
    destruct (IH Hb') as [IH1 IH2].
    cbn [append FreeBSDDistro.search_trailing_digits
         FreeBSDDistro.sub_trailing_digits].
    assert (Hcond : (let (ds0, rest) := span is_digit (String c (base ++ ds)) in
                     negb (is_empty ds0) && FreeBSDDistro.at_end rest) = false).
    { assert (Hnd : forallb_str is_digit (String c base) = false).
      { unfold no_digit_at_end in Hb.
        destruct (last_char (String c base)) as [z|] eqn:Ez.
        - apply negb_true_iff in Hb. exact (last_char_fails _ _ z Ez Hb).
        - apply last_char_None in Ez. discriminate. }
      assert (Hnd2 : forallb_str is_digit (String c (base ++ ds)) = false).
      { change (String c (base ++ ds)) with (String c base ++ ds).
        now rewrite forallb_str_app, Hnd. }
      destruct (span_suffix is_digit _ Hnd2) as (x & r & Hs & Hx & Hl).
      destruct (span is_digit (String c (base ++ ds))) as [ds0 rest].
      cbn [snd] in Hs. subst rest.
      change (String c (base ++ ds)) with (String c base ++ ds) in Hl.
      rewrite (last_char_app _ ds Hne) in Hl.
      destruct (digits_last ds Hd) as (z & Hz & Hzd). rewrite Hz in Hl.
      rewrite (at_end_last _ z Hl (digit_not_LF z Hzd)).
      apply andb_false_r. }
    destruct (span is_digit (String c (base ++ ds))) as [ds0 rest].
    rewrite Hcond, IH1, IH2. auto.
Qed.

Lemma search_trailing_digits_none s :
  no_index s = true -> FreeBSDDistro.search_trailing_digits s = None.
Proof.
  induction s as [|c s IH]; [reflexivity|]. intros Hn.
  cbn [FreeBSDDistro.search_trailing_digits].
  assert (Hl : exists z, last_char (String c s) = Some z
                         /\ is_digit z = false /\ Ascii.eqb z LF = false).
  { unfold no_index in Hn. destruct (last_char (String c s)) as [z|] eqn:E.
    - apply andb_true_iff in Hn as [H1 H2]. exists z.
      split; [reflexivity|]. split; now apply negb_true_iff.
    - apply last_char_None in E. discriminate. }
  destruct Hl as (z & Hz & Hzd & Hzl).
  assert (Hnd : forallb_str is_digit (String c s) = false).
  { exact (last_char_fails _ _ z Hz Hzd). }
  destruct (span_suffix is_digit _ Hnd) as (x & r & Hs & Hx & Hlast).
  destruct (span is_digit (String c s)) as [ds0 rest]. cbn [snd] in Hs.
  subst rest. rewrite Hz in Hlast.
  rewrite (at_end_last _ z Hlast Hzl), andb_false_r.
  apply IH. unfold no_index in *. cbn [last_char] in Hn.
  destruct s; [reflexivity | exact Hn].
Qed.

(** X17.  [getnetifname] gives back a name that starts with [lo] as it is,
    whatever the listing; for any other name that has no number at its end
    it raises [AttributeError], before the listing is looked at. *)
Theorem getnetifname_without_index_raises out dev :
  no_index dev = true ->
  FreeBSDDistro.getnetifname out dev
  = if FreeBSDDistro.startswith_lo dev then inl dev
    else inr FreeBSDDistro.AttributeError.
Proof.
  intros Hn. unfold FreeBSDDistro.getnetifname.
  now rewrite (search_trailing_digits_none dev Hn).
Qed.

Lemma getnetifname_without_index_raises_witness :
  FreeBSDDistro.getnetifname listing_freebsd "eth"
  = inr FreeBSDDistro.AttributeError
  /\ FreeBSDDistro.getnetifname listing_freebsd "local"
     = inl "local".
Proof.
  split.
  - apply (getnetifname_without_index_raises listing_freebsd "eth").
    reflexivity.
  - apply (getnetifname_without_index_raises listing_freebsd "local").
    reflexivity.
Defined.

Lemma sub_trailing_digits_none repl s :
  no_index s = true -> FreeBSDDistro.sub_trailing_digits repl s = s.
Proof.
  induction s as [|c s IH]; [reflexivity|]. intros Hn.
  cbn [FreeBSDDistro.sub_trailing_digits].
  assert (Hl : exists z, last_char (String c s) = Some z
                         /\ is_digit z = false /\ Ascii.eqb z LF = false).
  { unfold no_index in Hn. destruct (last_char (String c s)) as [z|] eqn:E.
    - apply andb_true_iff in Hn as [H1 H2]. exists z.
      split; [reflexivity|]. split; now apply negb_true_iff.
    - apply last_char_None in E. discriminate. }
  destruct Hl as (z & Hz & Hzd & Hzl).
  pose proof (last_char_fails is_digit _ z Hz Hzd) as Hnd.
  destruct (span_suffix is_digit _ Hnd) as (x & r & Hs & Hx & Hlast).
  destruct (span is_digit (String c s)) as [ds0 rest]. cbn [snd] in Hs.
  subst rest. rewrite Hz in Hlast.
  rewrite (at_end_last _ z Hlast Hzl), andb_false_r.
  f_equal. apply IH. unfold no_index in *. cbn [last_char] in Hn.
  destruct s; [reflexivity | exact Hn].
Qed.

Lemma first_adapter_none lines :
  forallb (fun line =>
             let w := fst (span is_word line) in
             is_empty w || FreeBSDDistro.startswith_lo w) lines = true ->
  FreeBSDDistro.first_adapter (List.filter FreeBSDDistro.has_token lines)
  = "NOT_FOUND".
Proof.
  induction lines as [|l lines IH]; [reflexivity|].
  cbn [forallb List.filter]. intros H.
  apply andb_true_iff in H as [H1 H2].
  destruct (FreeBSDDistro.has_token l); [|now apply IH].
  cbn [FreeBSDDistro.first_adapter]. cbv zeta in H1.
  destruct (is_empty (fst (span is_word l))); [now apply IH|].
  cbn [orb] in H1. rewrite H1. now apply IH.
Qed.

(** X18.  When no line of the listing begins with a word that is not a
    loopback name, [getnetifname] gives the literal [NOT_FOUND] for every
    numbered name that does not start with [lo]: the number asked for is
    lost and nothing is raised. *)
Theorem getnetifname_without_adapter out dev_base index :
  no_adapter out = true ->
  FreeBSDDistro.startswith_lo (dev_base ++ index) = false ->
  no_digit_at_end dev_base = true -> digits index = true ->
  FreeBSDDistro.getnetifname out (dev_base ++ index) = inl "NOT_FOUND".
Proof.
  intros Hno Hlo Hb Hd. unfold FreeBSDDistro.getnetifname. rewrite Hlo.
  destruct (trailing_digits_app dev_base index index Hb Hd) as [-> _].
  unfold no_adapter in Hno. rewrite (first_adapter_none _ Hno).
  now rewrite sub_trailing_digits_none.
Qed.

Lemma getnetifname_without_adapter_witness :
  FreeBSDDistro.getnetifname
    ("lo0: flags=8049<UP,LOOPBACK,RUNNING,MULTICAST> metric 0 mtu 16384"
       ++ nl ++ tab ++ "inet 127.0.0.1 netmask 0xff000000" ++ nl)
    "eth1"
  = inl "NOT_FOUND".
Proof.
  apply (getnetifname_without_adapter
           ("lo0: flags=8049<UP,LOOPBACK,RUNNING,MULTICAST> metric 0 mtu 16384"
              ++ nl ++ tab ++ "inet 127.0.0.1 netmask 0xff000000" ++ nl)
           "eth" "1"); reflexivity.
Defined.

Lemma first_adapter_not_lo lines :
  FreeBSDDistro.startswith_lo (FreeBSDDistro.first_adapter lines) = false.
Proof.
  induction lines as [|l lines IH]; [reflexivity|].
  cbn [FreeBSDDistro.first_adapter]. cbv zeta.
  destruct (is_empty (fst (span is_word l))); [assumption|].
  destruct (FreeBSDDistro.startswith_lo (fst (span is_word l))) eqn:E;
    assumption.
Qed.

Lemma startswith_lo_swap base ds index :
  digits ds = true -> digits index = true ->
  FreeBSDDistro.startswith_lo (base ++ ds) = false ->
  FreeBSDDistro.startswith_lo (base ++ index) = false.
Proof.
  intros Hd Hi H.
  destruct (digits_inv ds Hd) as [Hne1 Ha1].
  destruct (digits_inv index Hi) as [Hne2 Ha2].
  destruct base as [|a [|b base]].
  - cbn [append]. destruct index as [|x index]; [congruence|].
    cbn [forallb_str] in Ha2. apply andb_true_iff in Ha2 as [Hx _].
    unfold FreeBSDDistro.startswith_lo.
    destruct x as [[] [] [] [] [] [] [] []]; try reflexivity;
      vm_compute in Hx; discriminate.
  - cbn [append]. destruct index as [|x index]; [congruence|].
    cbn [forallb_str] in Ha2. apply andb_true_iff in Ha2 as [Hx _].
    unfold FreeBSDDistro.startswith_lo.
    destruct a as [[] [] [] [] [] [] [] []]; try reflexivity.
    destruct x as [[] [] [] [] [] [] [] []]; try reflexivity;
      vm_compute in Hx; discriminate.
  - exact H.
Qed.

(** X19.  When the first adapter of the listing is [base] followed by
    digits, [getnetifname] translates a numbered name that does not start
    with [lo] into [base] followed by the number of that name, and
    translating the result once more gives it back unchanged. *)
Theorem getnetifname_takes_index out dev_base index base ds :
  FreeBSDDistro.first_adapter
    (List.filter FreeBSDDistro.has_token
       (splitlines (FreeBSDDistro.strip out))) = base ++ ds ->
  no_digit_at_end base = true -> digits ds = true ->
  FreeBSDDistro.startswith_lo (dev_base ++ index) = false ->
  no_digit_at_end dev_base = true -> digits index = true ->
  FreeBSDDistro.getnetifname out (dev_base ++ index) = inl (base ++ index)
  /\ FreeBSDDistro.getnetifname out (base ++ index) = inl (base ++ index).
Proof.
  intros Hf Hb Hd Hlo Hdb Hi.
  assert (Hlo' : FreeBSDDistro.startswith_lo (base ++ index) = false).
  { apply (startswith_lo_swap base ds index Hd Hi).
    rewrite <- Hf. apply first_adapter_not_lo. }
  unfold FreeBSDDistro.getnetifname. rewrite Hlo, Hlo', Hf.
  destruct (trailing_digits_app dev_base index index Hdb Hi) as [-> _].
  destruct (trailing_digits_app base index index Hb Hi) as [-> _].
  destruct (trailing_digits_app base ds index Hb Hd) as [_ ->].
  split; reflexivity.
Qed.

Lemma getnetifname_takes_index_witness :
  FreeBSDDistro.getnetifname listing_freebsd "eth1" = inl "vtnet1"
  /\ FreeBSDDistro.getnetifname listing_freebsd "vtnet1" = inl "vtnet1".
Proof.
  apply (getnetifname_takes_index listing_freebsd "eth" "1" "vtnet" "0");
    reflexivity.
Defined.
